(** * Session store and resource-listing controllers of the wallpaper
      admin front end

    A shallow embedding of the React components
    [src/contexts/AuthContext.tsx], [src/pages/ImageListing.tsx],
    [src/pages/Categories.tsx], [src/pages/ImageUpload.tsx] and of the
    dashboard page.

    Conventions of the embedding.
    - Every [useState] cell of a component is a field of that component's
      [State] record; the setter [setX v] is the function that replaces
      the field.  A handler reads the cells of the render it was created
      in (its argument [s]) and applies its setters in program order.
    - [localStorage] is a finite map from keys to strings.
    - A handler that talks to the backend takes the outcome of each
      [await]ed request as an argument and returns, next to the new
      state, the list of requests it issued, in order.
    - JavaScript numbers that hold page numbers, counts and byte sizes
      are integers ([Z]); where the page computes with them, the result
      is given only as far as double arithmetic is exact.
    - A list response may arrive after later operations; the listing is
      modelled both with every request answered at once ([step], [run])
      and with requests in flight ([act], [play]). *)

From stdpp Require Import base strings list sorting gmap.
From Stdlib Require Import ZArith Lia.

Open Scope Z_scope.

(** ** JavaScript values the components rely on *)

Module Js.

(** [!!s] for a string: only the empty string is falsy. *)
Definition truthy (s : string) : bool := bool_decide (s ≠ "").

(** [!!v] for [string | null | undefined]. *)
Definition truthy_opt (v : option string) : bool :=
  match v with
  | Some s => truthy s
  | None => false
  end.

(** [a || b] where [a] may be undefined and [b] is a string. *)
Definition or_else (a : option string) (b : string) : string :=
  match a with
  | Some s => if truthy s then s else b
  | None => b
  end.

(** [a || b || c] with two optional operands. *)
Definition or_else2 (a b : option string) (c : string) : string :=
  match a with
  | Some s => if truthy s then s else or_else b c
  | None => or_else b c
  end.

(** Text typed by the user is kept as its UTF-16 code units, so that
    [String.prototype.trim] can be written out.  [is_white_space] is
    ECMAScript's WhiteSpace together with LineTerminator. *)
Definition is_white_space (c : N) : bool :=
  let c := Z.of_N c in
  (c =? 0x0009) || (c =? 0x000A) || (c =? 0x000B) || (c =? 0x000C) ||
  (c =? 0x000D) || (c =? 0x0020) || (c =? 0x00A0) || (c =? 0x1680) ||
  ((0x2000 <=? c) && (c <=? 0x200A)) ||
  (c =? 0x2028) || (c =? 0x2029) || (c =? 0x202F) || (c =? 0x205F) ||
  (c =? 0x3000) || (c =? 0xFEFF).

Fixpoint trimStart (s : list N) : list N :=
  match s with
  | [] => []
  | c :: r => if is_white_space c then trimStart r else s
  end.

Definition trimEnd (s : list N) : list N := rev (trimStart (rev s)).

Definition trim (s : list N) : list N := trimEnd (trimStart s).

(** [!s] for a string of code units. *)
Definition is_empty (s : list N) : bool :=
  match s with [] => true | _ => false end.

End Js.

(** ** The axios instance, seen from the pages *)

Module Http.

(** What a [catch (err)] block reads from a rejected request:
    [err.response?.data?.message] and [err.message]. *)
Record AxiosError := {
  response_message : option string;
  message : option string
}.

Inductive Outcome (A : Type) :=
| Resolved (data : A)
| Rejected (err : AxiosError).
Arguments Resolved {A} data.
Arguments Rejected {A} err.

(** A file picked in an [<input type="file">]: its byte size and the
    data URL a [FileReader] produces for it. *)
Record File := {
  file_name : string;
  size : Z;
  dataURL : string
}.

(** The requests the pages issue.  [GetImages] carries the query
    parameters [page] and [limit] (written in decimal by [toString])
    and [category] when the filter is not ['All']. *)
Inductive Request :=
| GetCategories
| PostCategory (name : list N)
| PutCategory (id : string) (name : list N)
| DeleteCategory (id : string)
| GetImages (page limit : Z) (category : option string)
| DeleteImage (id : string)
| UploadImage (title category : string) (image : File).

End Http.

(** ** [src/contexts/AuthContext.tsx] *)

Module AuthContext.

Record Session := {
  localStorage : gmap string string;
  isAuthenticated : bool
}.

Definition jwt_key : string := "jwt_token".

Definition getItem (k : string) (ls : gmap string string) : option string :=
  ls !! k.
Definition setItem (k v : string) (ls : gmap string string)
  : gmap string string := <[k := v]> ls.
Definition removeItem (k : string) (ls : gmap string string)
  : gmap string string := delete k ls.

Definition setIsAuthenticated (b : bool) (s : Session) : Session :=
  {| localStorage := localStorage s; isAuthenticated := b |}.

(** A write to [localStorage]; the React state is not involved. *)
Definition withStorage (f : gmap string string → gmap string string)
    (s : Session) : Session :=
  {| localStorage := f (localStorage s);
     isAuthenticated := isAuthenticated s |}.

(** [useState<boolean>(false)] over whatever the browser has persisted. *)
Definition initial (ls : gmap string string) : Session :=
  {| localStorage := ls; isAuthenticated := false |}.

(** The mount effect: [setIsAuthenticated(!!token)]. *)
Definition init_effect (s : Session) : Session :=
  let token := getItem jwt_key (localStorage s) in
  setIsAuthenticated (Js.truthy_opt token) s.

(** The provider once initialised over a persisted storage. *)
Definition mount (ls : gmap string string) : Session :=
  init_effect (initial ls).

Definition login (token : string) (s : Session) : Session :=
  let s := withStorage (setItem jwt_key token) s in
  setIsAuthenticated true s.

Definition logout (s : Session) : Session :=
  let s := withStorage (removeItem jwt_key) s in
  setIsAuthenticated false s.

(** What can happen to a mounted provider: the two context actions and
    a page reload, which mounts the provider again over the storage
    left behind. *)
Inductive Action :=
| Login (token : string)
| Logout
| Reload.

Definition step (s : Session) (a : Action) : Session :=
  match a with
  | Login token => login token s
  | Logout => logout s
  | Reload => mount (localStorage s)
  end.

Definition run (s : Session) (acts : list Action) : Session :=
  foldl step s acts.

(** Two readings of "a token is present in persisted storage": an entry
    exists under the key, or the entry is one the mount effect counts
    as a token. *)
Definition token_stored (s : Session) : Prop :=
  is_Some (getItem jwt_key (localStorage s)).

Definition token_truthy (s : Session) : bool :=
  Js.truthy_opt (getItem jwt_key (localStorage s)).

Definition invariant_stored (s : Session) : Prop :=
  isAuthenticated s = true ↔ token_stored s.

Definition invariant_truthy (s : Session) : Prop :=
  isAuthenticated s = token_truthy s.

Definition nonempty_login (a : Action) : Prop :=
  match a with
  | Login token => token ≠ ""
  | _ => True
  end.

(** The stored entry, if any, is a non-empty token. *)
Definition storage_clean (ls : gmap string string) : Prop :=
  ls !! jwt_key ≠ Some "".

(** The strengthened invariant carried along a run. *)
Definition settled (s : Session) : Prop :=
  storage_clean (localStorage s) ∧ invariant_truthy s.

End AuthContext.

(** ** Records shared by the pages *)

Module Model.

Record Category := {
  cat_id : string;          (* _id *)
  cat_name : list N         (* name *)
}.

Record Image := {
  img_id : string;          (* _id *)
  title : string;
  category : Category;
  imageUrl : string;
  publicId : string;
  createdAt : option string
}.

(** The body of [GET /categories], in the shapes the declared state
    type [Category[]] gives a meaning to: a [data] that is there is the
    array of categories.  (The pages test [data] for truthiness only;
    a body whose [data] is something else than an array or nothing is
    outside this type.) *)
Inductive CategoriesData :=
| Envelope (data : list Category)     (* { data: [...] } *)
| BareArray (items : list Category)   (* [...] *)
| ObjectWithoutData                   (* an object, not an array, with no
                                         [data]: absent or null *)
| NullBody.                           (* null or undefined *)

End Model.

(** ** [src/pages/ImageListing.tsx] *)

Module ImageListing.
Import Http Model.

Module Pagination.
Record t := {
  currentPage : Z;
  totalPages : Z;
  totalRecords : Z;
  limit : Z;
  hasNextPage : bool;
  hasPrevPage : bool;
  nextPage : option Z;
  prevPage : option Z
}.
End Pagination.

(** [response.data] of [GET /images] when it is truthy: the [success]
    flag, [data] when it is an array, [pagination] when it is truthy. *)
Record ListBody := {
  success : bool;
  data : option (list Image);
  body_pagination : option Pagination.t
}.

(** [None] stands for a falsy [response.data]. *)
Definition ListOutcome := Outcome (option ListBody).

Record State := {
  images : list Image;
  categories : list Category;
  loading : bool;
  error : string;
  selectedCategory : string;
  deletingId : option string;
  showDeleteModal : bool;
  imageToDelete : option Image;
  currentPage : Z;
  pagination : option Pagination.t
}.

Definition limit : Z := 10.

Definition initial : State := {|
  images := [];
  categories := [];
  loading := true;
  error := "";
  selectedCategory := "All";
  deletingId := None;
  showDeleteModal := false;
  imageToDelete := None;
  currentPage := 1;
  pagination := None
|}.

Definition setImages (v : list Image) (s : State) : State :=
  {| images := v; categories := categories s; loading := loading s;
     error := error s; selectedCategory := selectedCategory s;
     deletingId := deletingId s; showDeleteModal := showDeleteModal s;
     imageToDelete := imageToDelete s; currentPage := currentPage s;
     pagination := pagination s |}.

Definition setCategories (v : list Category) (s : State) : State :=
  {| images := images s; categories := v; loading := loading s;
     error := error s; selectedCategory := selectedCategory s;
     deletingId := deletingId s; showDeleteModal := showDeleteModal s;
     imageToDelete := imageToDelete s; currentPage := currentPage s;
     pagination := pagination s |}.

Definition setLoading (v : bool) (s : State) : State :=
  {| images := images s; categories := categories s; loading := v;
     error := error s; selectedCategory := selectedCategory s;
     deletingId := deletingId s; showDeleteModal := showDeleteModal s;
     imageToDelete := imageToDelete s; currentPage := currentPage s;
     pagination := pagination s |}.

Definition setError (v : string) (s : State) : State :=
  {| images := images s; categories := categories s; loading := loading s;
     error := v; selectedCategory := selectedCategory s;
     deletingId := deletingId s; showDeleteModal := showDeleteModal s;
     imageToDelete := imageToDelete s; currentPage := currentPage s;
     pagination := pagination s |}.

Definition setSelectedCategory (v : string) (s : State) : State :=
  {| images := images s; categories := categories s; loading := loading s;
     error := error s; selectedCategory := v;
     deletingId := deletingId s; showDeleteModal := showDeleteModal s;
     imageToDelete := imageToDelete s; currentPage := currentPage s;
     pagination := pagination s |}.

Definition setDeletingId (v : option string) (s : State) : State :=
  {| images := images s; categories := categories s; loading := loading s;
     error := error s; selectedCategory := selectedCategory s;
     deletingId := v; showDeleteModal := showDeleteModal s;
     imageToDelete := imageToDelete s; currentPage := currentPage s;
     pagination := pagination s |}.

Definition setShowDeleteModal (v : bool) (s : State) : State :=
  {| images := images s; categories := categories s; loading := loading s;
     error := error s; selectedCategory := selectedCategory s;
     deletingId := deletingId s; showDeleteModal := v;
     imageToDelete := imageToDelete s; currentPage := currentPage s;
     pagination := pagination s |}.

Definition setImageToDelete (v : option Image) (s : State) : State :=
  {| images := images s; categories := categories s; loading := loading s;
     error := error s; selectedCategory := selectedCategory s;
     deletingId := deletingId s; showDeleteModal := showDeleteModal s;
     imageToDelete := v; currentPage := currentPage s;
     pagination := pagination s |}.

Definition setCurrentPage (v : Z) (s : State) : State :=
  {| images := images s; categories := categories s; loading := loading s;
     error := error s; selectedCategory := selectedCategory s;
     deletingId := deletingId s; showDeleteModal := showDeleteModal s;
     imageToDelete := imageToDelete s; currentPage := v;
     pagination := pagination s |}.

Definition setPagination (v : option Pagination.t) (s : State) : State :=
  {| images := images s; categories := categories s; loading := loading s;
     error := error s; selectedCategory := selectedCategory s;
     deletingId := deletingId s; showDeleteModal := showDeleteModal s;
     imageToDelete := imageToDelete s; currentPage := currentPage s;
     pagination := v |}.

(** [fetchCategories]: a failure is logged and nothing else. *)
Definition fetchCategories (s : State) (res : Outcome CategoriesData)
  : State * list Request :=
  (match res with
   | Resolved (Envelope l) => setCategories l s
   | Resolved (BareArray l) => setCategories l s
   | Resolved ObjectWithoutData => s
   | Resolved NullBody => s
   | Rejected _ => s
   end, [GetCategories]).

(** The query of [fetchImages], built from the render's
    [currentPage] and [selectedCategory]. *)
Definition images_request (s : State) : Request :=
  GetImages (currentPage s) limit
    (if bool_decide (selectedCategory s ≠ "All")
     then Some (selectedCategory s) else None).

Definition fetchImages (s : State) (res : ListOutcome)
  : State * list Request :=
  let request := images_request s in
  let s := setLoading true s in
  let s := setError "" s in
  let s :=
    match res with
    | Resolved (Some body) =>
        if success body then
          let s :=
            match data body with
            | Some l => setImages l s
            | None => setImages [] s
            end in
          match body_pagination body with
          | Some p => setPagination (Some p) s
          | None => s
          end
        else setError "Unexpected response from server" s
    | Resolved None => setError "Unexpected response from server" s
    | Rejected err =>
        setError
          (Js.or_else2 (response_message err) (message err)
             "Failed to fetch images") s
    end in
  (setLoading false s, [request]).

Definition handleCategoryChange (categoryId : string) (s : State) : State :=
  setCurrentPage 1 (setSelectedCategory categoryId s).

Definition handlePageChange (newPage : Z) (s : State) : State :=
  match pagination s with
  | Some p =>
      if (1 <=? newPage) && (newPage <=? Pagination.totalPages p)
      then setCurrentPage newPage s
      else s
  | None => s
  end.

Definition handleDeleteClick (image : Image) (s : State) : State :=
  setShowDeleteModal true (setImageToDelete (Some image) s).

Definition cancelDelete (s : State) : State :=
  setImageToDelete None (setShowDeleteModal false s).

(** [confirmDelete]: [fetchImages] is the closure of the render in
    which the dialog was confirmed, and it never throws. *)
Definition confirmDelete (s : State) (del : Outcome unit)
    (refetch : ListOutcome) : State * list Request :=
  match imageToDelete s with
  | None => (s, [])
  | Some img =>
      let s1 := setDeletingId (Some (img_id img)) s in
      let request := DeleteImage (img_id img) in
      match del with
      | Resolved _ =>
          let '(s2, reqs) := fetchImages s1 refetch in
          let s3 := setImageToDelete None (setShowDeleteModal false s2) in
          (setDeletingId None s3, request :: reqs)
      | Rejected err =>
          let s2 :=
            setError
              (Js.or_else (response_message err) "Failed to delete image")
              s1 in
          let s3 := setImageToDelete None (setShowDeleteModal false s2) in
          (setDeletingId None s3, [request])
      end
  end.

(** The Retry button of the error panel. *)
Definition retry (s : State) (res : ListOutcome) : State * list Request :=
  fetchImages (setError "" s) res.

(** [useEffect(() => { fetchImages() }, [selectedCategory, currentPage])]:
    after a render the effect runs when one of the two dependencies
    differs from the previous render. *)
Definition deps (s : State) : string * Z :=
  (selectedCategory s, currentPage s).

Definition deps_changed (prev next : State) : bool :=
  bool_decide (deps prev ≠ deps next).

Definition after_render (prev next : State) (res : ListOutcome)
  : State * list Request :=
  if deps_changed prev next then fetchImages next res else (next, []).

(** Mounting: both effects run on the initial state. *)
Definition mount (cats : Outcome CategoriesData) (res : ListOutcome)
  : State * list Request :=
  let '(s1, r1) := fetchCategories initial cats in
  let '(s2, r2) := fetchImages s1 res in
  (s2, r1 ++ r2).

(** The operations of the controller as the user drives them. *)
Inductive Event :=
| SetFilter (categoryId : string) (res : ListOutcome)
| SetPage (newPage : Z) (res : ListOutcome)
| DeleteClick (image : Image)
| CancelDelete
| ConfirmDelete (del : Outcome unit) (refetch : ListOutcome)
| Retry (res : ListOutcome).

Definition step (s : State) (ev : Event) : State * list Request :=
  match ev with
  | SetFilter c res => after_render s (handleCategoryChange c s) res
  | SetPage n res => after_render s (handlePageChange n s) res
  | DeleteClick img => (handleDeleteClick img s, [])
  | CancelDelete => (cancelDelete s, [])
  | ConfirmDelete del refetch => confirmDelete s del refetch
  | Retry res => retry s res
  end.

Definition run (s : State) (evs : list Event) : State :=
  foldl (λ s ev, fst (step s ev)) s evs.

(** What the listing container renders. *)
Inductive View :=
| Spinner
| ErrorPanel (msg : string)
| EmptyState
| Grid (shown : list Image).

Definition render (s : State) : View :=
  if loading s then Spinner
  else if Js.truthy (error s) then ErrorPanel (error s)
  else match images s with
       | [] => EmptyState
       | l => Grid l
       end.

(** The pagination invariant of the data model: with records present,
    the controller's page lies within the pages of the pagination it
    holds. *)
Definition page_in_range (s : State) : Prop :=
  ∀ p, pagination s = Some p →
       0 < Pagination.totalRecords p →
       1 ≤ currentPage s ≤ Pagination.totalPages p.

(** A list response covers a page when its pagination, if it brings
    one with records, has at least that many pages. *)
Definition covers (page : Z) (res : ListOutcome) : Prop :=
  match res with
  | Resolved (Some body) =>
      match body_pagination body with
      | Some p =>
          success body = true → 0 < Pagination.totalRecords p →
          page ≤ Pagination.totalPages p
      | None => True
      end
  | _ => True
  end.

(** The invariant carried along a run of the controller. *)
Definition ranged (s : State) : Prop :=
  1 ≤ currentPage s ∧ page_in_range s.

(** An entry of the page bar: a page number or the ['...'] filler. *)
Inductive PageItem :=
| PageNum (n : Z)
| Ellipsis.

(** What [for (let i = a; i <= b; i++) pages.push(i)] pushes. *)
Definition pages_from_to (a b : Z) : list Z := seqZ a (b - a + 1).

(** [getPageNumbers]; [currentPage] and [totalPages] are the ones
    destructured from [pagination], not the state cell. *)
Definition getPageNumbers (s : State) : list PageItem :=
  match pagination s with
  | None => []
  | Some p =>
      let currentPage := Pagination.currentPage p in
      let totalPages := Pagination.totalPages p in
      if totalPages <=? 7 then PageNum <$> pages_from_to 1 totalPages
      else
        let start := Z.max 2 (currentPage - 1) in
        let end_ := Z.min (totalPages - 1) (currentPage + 1) in
        [PageNum 1]
        ++ (if 3 <? currentPage then [Ellipsis] else [])
        ++ (PageNum <$> pages_from_to start end_)
        ++ (if currentPage <? totalPages - 2 then [Ellipsis] else [])
        ++ [PageNum totalPages]
  end.

(** The page numbers among the entries, in order. *)
Definition page_numbers (items : list PageItem) : list Z :=
  omap (λ it, match it with PageNum n => Some n | Ellipsis => None end) items.

(** [disabled={page === '...' || page === currentPage}] of a page-bar
    button; here [currentPage] is the state cell. *)
Definition page_button_disabled (s : State) (item : PageItem) : bool :=
  match item with
  | Ellipsis => true
  | PageNum n => bool_decide (n = currentPage s)
  end.

(** [onClick={() => typeof page === 'number' && handlePageChange(page)}]
    followed by the render it causes. *)
Definition page_button_click (s : State) (item : PageItem)
    (res : ListOutcome) : State * list Request :=
  match item with
  | PageNum n => after_render s (handlePageChange n s) res
  | Ellipsis => (s, [])
  end.

(** [pagination?.nextPage && handlePageChange(pagination.nextPage)]: a
    missing pagination, a null page and page 0 are falsy. *)
Definition goToPage (target : Pagination.t → option Z) (s : State) : State :=
  match pagination s with
  | Some p =>
      match target p with
      | Some n => if n =? 0 then s else handlePageChange n s
      | None => s
      end
  | None => s
  end.

Definition goToNextPage (s : State) : State := goToPage Pagination.nextPage s.
Definition goToPrevPage (s : State) : State := goToPage Pagination.prevPage s.

(** [Number.MAX_SAFE_INTEGER]: integers up to it in absolute value are
    doubles, and arithmetic on them is exact while the result stays in
    that range. *)
Definition max_safe_integer : Z := 2 ^ 53 - 1.

(** An integer result of double arithmetic, where it is exact; [None]
    where the double would be rounded. *)
Definition exact (z : Z) : option Z :=
  if (- max_safe_integer <=? z) && (z <=? max_safe_integer)
  then Some z else None.

(** "Showing [from] to [to] of [totalRecords] images":
    [((currentPage - 1) * limit) + 1] and
    [Math.min(currentPage * limit, pagination.totalRecords)], each
    operation checked for exactness. *)
Definition showing_from (s : State) : option Z :=
  page ← exact (currentPage s);
  before ← exact (page - 1);
  skipped ← exact (before * limit);
  exact (skipped + 1).

Definition showing_to (s : State) (p : Pagination.t) : option Z :=
  page ← exact (currentPage s);
  records ← exact (Pagination.totalRecords p);
  upto ← exact (page * limit);
  Some (Z.min upto records).

(** A run that keeps the requests issued, in order. *)
Fixpoint run_log (s : State) (evs : list Event) : State * list Request :=
  match evs with
  | [] => (s, [])
  | ev :: rest =>
      let '(s1, r1) := step s ev in
      let '(s2, r2) := run_log s1 rest in
      (s2, r1 ++ r2)
  end.

(** The image ids of the delete requests of a log, and the images of
    the delete clicks of a trace. *)
Definition delete_requests (log : list Request) : list string :=
  omap (λ r, match r with DeleteImage id => Some id | _ => None end) log.

Definition delete_clicks (evs : list Event) : list Image :=
  omap (λ ev, match ev with DeleteClick img => Some img | _ => None end) evs.

(** 1 while the delete dialog holds an image, 0 otherwise. *)
Definition pending_delete (s : State) : nat :=
  match imageToDelete s with Some _ => 1%nat | None => 0%nat end.

(** No request is in flight: neither spinner is on. *)
Definition idle (s : State) : Prop :=
  loading s = false ∧ deletingId s = None.

(** *** Requests in flight

    No fetch is ever cancelled and the filter buttons stay clickable
    while one is in flight, so a response may arrive after later
    operations.  [fetchImages] is cut at its [await]: [fetch_start] is
    what runs before it and [fetch_settle] what runs once the response
    is there; both act on the cells as they are at that moment. *)

Definition fetch_start (s : State) : State :=
  setError "" (setLoading true s).

Definition fetch_settle (res : ListOutcome) (s : State) : State :=
  let s :=
    match res with
    | Resolved (Some body) =>
        if success body then
          let s :=
            match data body with
            | Some l => setImages l s
            | None => setImages [] s
            end in
          match body_pagination body with
          | Some p => setPagination (Some p) s
          | None => s
          end
        else setError "Unexpected response from server" s
    | Resolved None => setError "Unexpected response from server" s
    | Rejected err =>
        setError
          (Js.or_else2 (response_message err) (message err)
             "Failed to fetch images") s
    end in
  setLoading false s.

(** What [confirmDelete] runs after its two [await]s, and its [catch]. *)
Definition finish_delete (s : State) : State :=
  setDeletingId None (setImageToDelete None (setShowDeleteModal false s)).

Definition fail_delete (err : AxiosError) (s : State) : State :=
  finish_delete
    (setError (Js.or_else (response_message err) "Failed to delete image") s).

(** A request that has been sent and not answered yet.  A list request
    sent by [confirmDelete] closes the dialog when it settles; a delete
    request carries the list request that the [fetchImages] of its
    render will send. *)
Inductive InFlight :=
| CategoriesRequest
| ListRequest (req : Request) (closes_dialog : bool)
| DeleteRequest (id : string) (refetch : Request).

Inductive Response :=
| CategoriesResponse (cats : Outcome CategoriesData)
| ListResponse (res : ListOutcome)
| DeleteResponse (del : Outcome unit).

Record Page := {
  cells : State;
  in_flight : list InFlight
}.

(** User actions, and the arrival of the answer to the [i]-th request in
    flight. *)
Inductive Action :=
| ClickFilter (categoryId : string)
| ClickPage (newPage : Z)
| ClickDelete (image : Image)
| ClickCancel
| ClickConfirm
| ClickRetry
| Arrives (i : nat) (r : Response).

(** The render after a handler: the effect sends a list request when a
    dependency changed. *)
Definition rerender (prev next : State) (sent : list InFlight) : Page :=
  if deps_changed prev next then
    {| cells := fetch_start next;
       in_flight := sent ++ [ListRequest (images_request next) false] |}
  else {| cells := next; in_flight := sent |}.

Definition act (p : Page) (a : Action) : Page :=
  let s := cells p in
  match a with
  | ClickFilter c => rerender s (handleCategoryChange c s) (in_flight p)
  | ClickPage n => rerender s (handlePageChange n s) (in_flight p)
  | ClickDelete img =>
      {| cells := handleDeleteClick img s; in_flight := in_flight p |}
  | ClickCancel => {| cells := cancelDelete s; in_flight := in_flight p |}
  | ClickConfirm =>
      match imageToDelete s with
      | None => p
      | Some img =>
          {| cells := setDeletingId (Some (img_id img)) s;
             in_flight :=
               in_flight p ++ [DeleteRequest (img_id img) (images_request s)] |}
      end
  | ClickRetry =>
      {| cells := fetch_start (setError "" s);
         in_flight := in_flight p ++ [ListRequest (images_request s) false] |}
  | Arrives i r =>
      match in_flight p !! i, r with
      | Some CategoriesRequest, CategoriesResponse cats =>
          {| cells := fst (fetchCategories s cats);
             in_flight := delete i (in_flight p) |}
      | Some (ListRequest _ closes), ListResponse res =>
          {| cells :=
               (if closes then finish_delete else id) (fetch_settle res s);
             in_flight := delete i (in_flight p) |}
      | Some (DeleteRequest _ refetch), DeleteResponse (Resolved _) =>
          {| cells := fetch_start s;
             in_flight := delete i (in_flight p) ++ [ListRequest refetch true] |}
      | Some (DeleteRequest _ _), DeleteResponse (Rejected err) =>
          {| cells := fail_delete err s;
             in_flight := delete i (in_flight p) |}
      | _, _ => p
      end
  end.

Definition play (p : Page) (acts : list Action) : Page := foldl act p acts.

(** The page right after mounting: both effects have sent their
    request. *)
Definition mounting : Page :=
  {| cells := fetch_start initial;
     in_flight := [CategoriesRequest;
                   ListRequest (images_request initial) false] |}.

(** The list response that an action makes the page store, if any. *)
Definition stored_response (p : Page) (a : Action) : option ListOutcome :=
  match a with
  | Arrives i (ListResponse res) =>
      match in_flight p !! i with
      | Some (ListRequest _ _) => Some res
      | _ => None
      end
  | _ => None
  end.

(** Every list response stored along the actions covers the page the
    controller is on when the response arrives. *)
Fixpoint arrivals_cover (p : Page) (acts : list Action) : Prop :=
  match acts with
  | [] => True
  | a :: rest =>
      match stored_response p a with
      | Some res => covers (currentPage (cells p)) res
      | None => True
      end
      ∧ arrivals_cover (act p a) rest
  end.

(** An operation of [step] as actions: each request is answered before
    anything else happens. *)
Definition one_at_a_time (ev : Event) : list Action :=
  match ev with
  | SetFilter c res => [ClickFilter c; Arrives 0 (ListResponse res)]
  | SetPage n res => [ClickPage n; Arrives 0 (ListResponse res)]
  | DeleteClick img => [ClickDelete img]
  | CancelDelete => [ClickCancel]
  | ConfirmDelete del refetch =>
      [ClickConfirm; Arrives 0 (DeleteResponse del);
       Arrives 0 (ListResponse refetch)]
  | Retry res => [ClickRetry; Arrives 0 (ListResponse res)]
  end.

End ImageListing.

(** ** [src/pages/Categories.tsx] *)

Module Categories.
Import Http Model.

Inductive ModalMode := Create | Edit.

Record State := {
  categories : list Category;
  loading : bool;
  error : string;
  showModal : bool;
  modalMode : ModalMode;
  editingCategory : option Category;
  categoryName : list N;
  modalLoading : bool;
  modalError : string;
  showDeleteModal : bool;
  categoryToDelete : option Category;
  deleteLoading : bool
}.

Definition initial : State := {|
  categories := [];
  loading := true;
  error := "";
  showModal := false;
  modalMode := Create;
  editingCategory := None;
  categoryName := [];
  modalLoading := false;
  modalError := "";
  showDeleteModal := false;
  categoryToDelete := None;
  deleteLoading := false
|}.

Definition setCategories (v : list Category) (s : State) : State :=
  {| categories := v; loading := loading s; error := error s;
     showModal := showModal s; modalMode := modalMode s;
     editingCategory := editingCategory s; categoryName := categoryName s;
     modalLoading := modalLoading s; modalError := modalError s;
     showDeleteModal := showDeleteModal s;
     categoryToDelete := categoryToDelete s;
     deleteLoading := deleteLoading s |}.

Definition setLoading (v : bool) (s : State) : State :=
  {| categories := categories s; loading := v; error := error s;
     showModal := showModal s; modalMode := modalMode s;
     editingCategory := editingCategory s; categoryName := categoryName s;
     modalLoading := modalLoading s; modalError := modalError s;
     showDeleteModal := showDeleteModal s;
     categoryToDelete := categoryToDelete s;
     deleteLoading := deleteLoading s |}.

Definition setError (v : string) (s : State) : State :=
  {| categories := categories s; loading := loading s; error := v;
     showModal := showModal s; modalMode := modalMode s;
     editingCategory := editingCategory s; categoryName := categoryName s;
     modalLoading := modalLoading s; modalError := modalError s;
     showDeleteModal := showDeleteModal s;
     categoryToDelete := categoryToDelete s;
     deleteLoading := deleteLoading s |}.

Definition setShowModal (v : bool) (s : State) : State :=
  {| categories := categories s; loading := loading s; error := error s;
     showModal := v; modalMode := modalMode s;
     editingCategory := editingCategory s; categoryName := categoryName s;
     modalLoading := modalLoading s; modalError := modalError s;
     showDeleteModal := showDeleteModal s;
     categoryToDelete := categoryToDelete s;
     deleteLoading := deleteLoading s |}.

Definition setModalMode (v : ModalMode) (s : State) : State :=
  {| categories := categories s; loading := loading s; error := error s;
     showModal := showModal s; modalMode := v;
     editingCategory := editingCategory s; categoryName := categoryName s;
     modalLoading := modalLoading s; modalError := modalError s;
     showDeleteModal := showDeleteModal s;
     categoryToDelete := categoryToDelete s;
     deleteLoading := deleteLoading s |}.

Definition setEditingCategory (v : option Category) (s : State) : State :=
  {| categories := categories s; loading := loading s; error := error s;
     showModal := showModal s; modalMode := modalMode s;
     editingCategory := v; categoryName := categoryName s;
     modalLoading := modalLoading s; modalError := modalError s;
     showDeleteModal := showDeleteModal s;
     categoryToDelete := categoryToDelete s;
     deleteLoading := deleteLoading s |}.

Definition setCategoryName (v : list N) (s : State) : State :=
  {| categories := categories s; loading := loading s; error := error s;
     showModal := showModal s; modalMode := modalMode s;
     editingCategory := editingCategory s; categoryName := v;
     modalLoading := modalLoading s; modalError := modalError s;
     showDeleteModal := showDeleteModal s;
     categoryToDelete := categoryToDelete s;
     deleteLoading := deleteLoading s |}.

Definition setModalLoading (v : bool) (s : State) : State :=
  {| categories := categories s; loading := loading s; error := error s;
     showModal := showModal s; modalMode := modalMode s;
     editingCategory := editingCategory s; categoryName := categoryName s;
     modalLoading := v; modalError := modalError s;
     showDeleteModal := showDeleteModal s;
     categoryToDelete := categoryToDelete s;
     deleteLoading := deleteLoading s |}.

Definition setModalError (v : string) (s : State) : State :=
  {| categories := categories s; loading := loading s; error := error s;
     showModal := showModal s; modalMode := modalMode s;
     editingCategory := editingCategory s; categoryName := categoryName s;
     modalLoading := modalLoading s; modalError := v;
     showDeleteModal := showDeleteModal s;
     categoryToDelete := categoryToDelete s;
     deleteLoading := deleteLoading s |}.

Definition setShowDeleteModal (v : bool) (s : State) : State :=
  {| categories := categories s; loading := loading s; error := error s;
     showModal := showModal s; modalMode := modalMode s;
     editingCategory := editingCategory s; categoryName := categoryName s;
     modalLoading := modalLoading s; modalError := modalError s;
     showDeleteModal := v;
     categoryToDelete := categoryToDelete s;
     deleteLoading := deleteLoading s |}.

Definition setCategoryToDelete (v : option Category) (s : State) : State :=
  {| categories := categories s; loading := loading s; error := error s;
     showModal := showModal s; modalMode := modalMode s;
     editingCategory := editingCategory s; categoryName := categoryName s;
     modalLoading := modalLoading s; modalError := modalError s;
     showDeleteModal := showDeleteModal s;
     categoryToDelete := v;
     deleteLoading := deleteLoading s |}.

Definition setDeleteLoading (v : bool) (s : State) : State :=
  {| categories := categories s; loading := loading s; error := error s;
     showModal := showModal s; modalMode := modalMode s;
     editingCategory := editingCategory s; categoryName := categoryName s;
     modalLoading := modalLoading s; modalError := modalError s;
     showDeleteModal := showDeleteModal s;
     categoryToDelete := categoryToDelete s;
     deleteLoading := v |}.

(** [fetchCategories] catches its own failure and never throws. *)
Definition fetchCategories (s : State) (res : Outcome CategoriesData)
  : State * list Request :=
  let s := setError "" (setLoading true s) in
  let s :=
    match res with
    | Resolved (Envelope l) => setCategories l s
    | Resolved (BareArray l) => setCategories l s
    | Resolved ObjectWithoutData => s
    | Resolved NullBody => s
    | Rejected err =>
        setError
          (Js.or_else (response_message err) "Failed to fetch categories") s
    end in
  (setLoading false s, [GetCategories]).

Definition openCreateModal (s : State) : State :=
  setShowModal true
    (setModalError ""
       (setEditingCategory None (setCategoryName [] (setModalMode Create s)))).

Definition openEditModal (c : Category) (s : State) : State :=
  setShowModal true
    (setModalError ""
       (setEditingCategory (Some c)
          (setCategoryName (cat_name c) (setModalMode Edit s)))).

Definition closeModal (s : State) : State :=
  setModalError ""
    (setEditingCategory None (setCategoryName [] (setShowModal false s))).

(** The request [handleSave] sends for the state it was called in; in
    edit mode without a category under edit it sends none. *)
Definition save_request (s : State) : option Request :=
  match modalMode s with
  | Create => Some (PostCategory (Js.trim (categoryName s)))
  | Edit =>
      match editingCategory s with
      | Some c => Some (PutCategory (cat_id c) (Js.trim (categoryName s)))
      | None => None
      end
  end.

Definition handleSave (s : State) (save : Outcome unit)
    (refetch : Outcome CategoriesData) : State * list Request :=
  if Js.is_empty (Js.trim (categoryName s)) then
    (setModalError "Category name is required" s, [])
  else
    let s1 := setModalError "" (setModalLoading true s) in
    match save_request s, save with
    | Some request, Rejected err =>
        let s2 :=
          setModalError
            (Js.or_else (response_message err) "Failed to save category")
            s1 in
        (setModalLoading false s2, [request])
    | sent, _ =>
        let '(s2, reqs) := fetchCategories s1 refetch in
        (setModalLoading false (closeModal s2), option_list sent ++ reqs)
    end.

Definition openDeleteModal (c : Category) (s : State) : State :=
  setShowDeleteModal true (setCategoryToDelete (Some c) s).

Definition closeDeleteModal (s : State) : State :=
  setCategoryToDelete None (setShowDeleteModal false s).

Definition confirmDelete (s : State) (del : Outcome unit)
    (refetch : Outcome CategoriesData) : State * list Request :=
  match categoryToDelete s with
  | None => (s, [])
  | Some c =>
      let s1 := setDeleteLoading true s in
      let request := DeleteCategory (cat_id c) in
      match del with
      | Resolved _ =>
          let '(s2, reqs) := fetchCategories s1 refetch in
          (setDeleteLoading false (closeDeleteModal s2), request :: reqs)
      | Rejected err =>
          let s2 :=
            setError
              (Js.or_else (response_message err) "Failed to delete category")
              s1 in
          (setDeleteLoading false (closeDeleteModal s2), [request])
      end
  end.

(** What the user can do on the category page.  [TypeName] is the
    [onChange] of the name input, [Retry] the button of the error
    panel. *)
Inductive Event :=
| OpenCreate
| OpenEdit (c : Category)
| TypeName (v : list N)
| CloseModal
| Save (save : Outcome unit) (refetch : Outcome CategoriesData)
| OpenDelete (c : Category)
| CloseDelete
| ConfirmDelete (del : Outcome unit) (refetch : Outcome CategoriesData)
| Retry (refetch : Outcome CategoriesData).

Definition step (s : State) (ev : Event) : State * list Request :=
  match ev with
  | OpenCreate => (openCreateModal s, [])
  | OpenEdit c => (openEditModal c s, [])
  | TypeName v => (setCategoryName v s, [])
  | CloseModal => (closeModal s, [])
  | Save save refetch => handleSave s save refetch
  | OpenDelete c => (openDeleteModal c s, [])
  | CloseDelete => (closeDeleteModal s, [])
  | ConfirmDelete del refetch => confirmDelete s del refetch
  | Retry refetch => fetchCategories (setError "" s) refetch
  end.

Definition run (s : State) (evs : list Event) : State :=
  foldl (λ s ev, fst (step s ev)) s evs.

(** The mount effect. *)
Definition mount (cats : Outcome CategoriesData) : State :=
  fst (fetchCategories initial cats).

(** While the modal is shown in edit mode, a category is under edit. *)
Definition modal_consistent (s : State) : Prop :=
  showModal s = true → modalMode s = Edit → is_Some (editingCategory s).

(** The name a save request carries. *)
Definition request_name (r : Request) : option (list N) :=
  match r with
  | PostCategory name => Some name
  | PutCategory _ name => Some name
  | _ => None
  end.

(** No request is in flight: none of the three spinners is on. *)
Definition idle (s : State) : Prop :=
  loading s = false ∧ modalLoading s = false ∧ deleteLoading s = false.

End Categories.

(** ** [src/pages/ImageUpload.tsx] *)

Module ImageUpload.
Import Http.

(** [categories] starts as [[]] and is then whatever [res.data.data]
    evaluates to; [None] is [undefined] or [null]. *)
Record State := {
  title : string;
  category : string;
  image : option File;
  preview : string;
  loading : bool;
  error : string;
  success : bool;
  categories : option (list Model.Category)
}.

Definition initial : State := {|
  title := "";
  category := "";
  image := None;
  preview := "";
  loading := false;
  error := "";
  success := false;
  categories := Some []
|}.

Definition setTitle (v : string) (s : State) : State :=
  {| title := v; category := category s; image := image s;
     preview := preview s; loading := loading s; error := error s;
     success := success s; categories := categories s |}.

Definition setCategory (v : string) (s : State) : State :=
  {| title := title s; category := v; image := image s;
     preview := preview s; loading := loading s; error := error s;
     success := success s; categories := categories s |}.

Definition setImage (v : option File) (s : State) : State :=
  {| title := title s; category := category s; image := v;
     preview := preview s; loading := loading s; error := error s;
     success := success s; categories := categories s |}.

Definition setPreview (v : string) (s : State) : State :=
  {| title := title s; category := category s; image := image s;
     preview := v; loading := loading s; error := error s;
     success := success s; categories := categories s |}.

Definition setLoading (v : bool) (s : State) : State :=
  {| title := title s; category := category s; image := image s;
     preview := preview s; loading := v; error := error s;
     success := success s; categories := categories s |}.

Definition setError (v : string) (s : State) : State :=
  {| title := title s; category := category s; image := image s;
     preview := preview s; loading := loading s; error := v;
     success := success s; categories := categories s |}.

Definition setSuccess (v : bool) (s : State) : State :=
  {| title := title s; category := category s; image := image s;
     preview := preview s; loading := loading s; error := error s;
     success := v; categories := categories s |}.

Definition setCategories (v : option (list Model.Category)) (s : State)
  : State :=
  {| title := title s; category := category s; image := image s;
     preview := preview s; loading := loading s; error := error s;
     success := success s; categories := v |}.

Definition max_size : Z := 10 * 1024 * 1024.

(** [handleImageChange]: [file] is [e.target.files?.[0]].  The reader's
    [onloadend] callback, which stores the preview, is run with the
    handler. *)
Definition handleImageChange (file : option File) (s : State)
  : State * list Request :=
  match file with
  | Some f =>
      if max_size <? size f then
        (setError "File size must be less than 10MB" s, [])
      else
        let s := setImage (Some f) s in
        let s := setError "" s in
        (setPreview (dataURL f) s, [])
  | None => (s, [])
  end.

Definition handleSubmit (s : State) (res : Outcome unit)
  : State * list Request :=
  match image s with
  | None => (setError "Please select an image" s, [])
  | Some img =>
      let s1 := setSuccess false (setError "" (setLoading true s)) in
      let request := UploadImage (title s) (category s) img in
      let s2 :=
        match res with
        | Resolved _ =>
            setPreview ""
              (setImage None (setCategory "" (setTitle "" (setSuccess true s1))))
        | Rejected err =>
            setError
              (Js.or_else (response_message err)
                 "Failed to upload image. Please try again.") s1
        end in
      (setLoading false s2, [request])
  end.

(** [fetchCategories]: [setCategories(res.data.data)].  Reading [data]
    off a null body throws and lands in the [catch]. *)
Definition fetchCategories (s : State) (res : Outcome Model.CategoriesData)
  : State * list Request :=
  (match res with
   | Resolved (Model.Envelope l) => setCategories (Some l) s
   | Resolved (Model.BareArray _) => setCategories None s
   | Resolved Model.ObjectWithoutData => setCategories None s
   | Resolved Model.NullBody => setError "Failed to load categories" s
   | Rejected _ => setError "Failed to load categories" s
   end, [GetCategories]).

(** The options of the category [<select>]: [categories.length > 0 ?
    categories.map(...) : ...].  [None] when reading [length] off
    [undefined] or [null] throws during render. *)
Definition category_options (s : State) : option (list Model.Category) :=
  categories s.

(** What the user can do on the upload form. *)
Inductive Event :=
| TypeTitle (v : string)
| ChooseCategory (v : string)
| PickFile (file : option File)
| Submit (res : Outcome unit).

Definition step (s : State) (ev : Event) : State * list Request :=
  match ev with
  | TypeTitle v => (setTitle v s, [])
  | ChooseCategory v => (setCategory v s, [])
  | PickFile file => handleImageChange file s
  | Submit res => handleSubmit s res
  end.

(** A run that keeps the requests issued, in order. *)
Fixpoint run_log (s : State) (evs : list Event) : State * list Request :=
  match evs with
  | [] => (s, [])
  | ev :: rest =>
      let '(s1, r1) := step s ev in
      let '(s2, r2) := run_log s1 rest in
      (s2, r1 ++ r2)
  end.

(** The mount effect. *)
Definition mount (cats : Outcome Model.CategoriesData) : State :=
  fst (fetchCategories initial cats).

(** The staged file, if any, is within the size ceiling. *)
Definition staged_within_limit (s : State) : Prop :=
  ∀ f, image s = Some f → size f ≤ max_size.

End ImageUpload.

(** ** The dashboard page ([src/unnamed/part_002]) *)

Module Dashboard.
Import Http Model.

Record State := {
  images : list Image;
  loading : bool;
  error : string
}.

Definition initial : State :=
  {| images := []; loading := true; error := "" |}.

Definition setImages (v : list Image) (s : State) : State :=
  {| images := v; loading := loading s; error := error s |}.

Definition setLoading (v : bool) (s : State) : State :=
  {| images := images s; loading := v; error := error s |}.

Definition setError (v : string) (s : State) : State :=
  {| images := images s; loading := loading s; error := v |}.

(** [fetchRecentImages]: one [GET /images] without parameters.  The
    resolved value is [response.data?.data] when it is an array and
    [None] otherwise; [slice(0, 6)] keeps the first six. *)
Definition fetchRecentImages (s : State) (res : Outcome (option (list Image)))
  : State :=
  let s := setError "" (setLoading true s) in
  let s :=
    match res with
    | Resolved data =>
        let imageList := default [] data in
        setImages (take 6 imageList) s
    | Rejected err =>
        setError (Js.or_else (response_message err) "Failed to fetch images") s
    end in
  setLoading false s.

End Dashboard.

(** ** Concrete backend answers used in the examples *)

Module Scenario.
Import Http Model ImageListing.

(** "Nature" in code units. *)
Definition nature : Category :=
  {| cat_id := "c1"; cat_name := [78; 97; 116; 117; 114; 101]%N |}.

Definition sample_image (id : string) : Image :=
  {| img_id := id; title := "wallpaper " +:+ id; category := nature;
     imageUrl := "https://cdn.example/" +:+ id; publicId := "pub-" +:+ id;
     createdAt := None |}.

(** The pagination block a backend holding [records] images sends for
    page [page] out of [pages]. *)
Definition page_info (page pages records : Z) : Pagination.t :=
  {| Pagination.currentPage := page;
     Pagination.totalPages := pages;
     Pagination.totalRecords := records;
     Pagination.limit := 10;
     Pagination.hasNextPage := page <? pages;
     Pagination.hasPrevPage := 1 <? page;
     Pagination.nextPage := if page <? pages then Some (page + 1) else None;
     Pagination.prevPage := if 1 <? page then Some (page - 1) else None |}.

Definition list_ok (ids : list string) (p : option Pagination.t)
  : ListOutcome :=
  Resolved (Some {| success := true;
                    data := Some (map sample_image ids);
                    body_pagination := p |}).

Definition first_page_ids : list string :=
  ["1"; "2"; "3"; "4"; "5"; "6"; "7"; "8"; "9"; "10"].

Definition second_page_ids : list string :=
  ["11"; "12"; "13"; "14"; "15"; "16"; "17"; "18"; "19"; "20"].

(** The listing page once mounted against a backend with 21 images. *)
Definition mounted : State :=
  fst (mount (Resolved (Envelope [nature]))
             (list_ok first_page_ids (Some (page_info 1 3 21)))).

(** The user is on page 2 of 3. *)
Definition on_second_page : State :=
  run mounted
    [SetPage 2 (list_ok second_page_ids (Some (page_info 2 3 21)))].

(** The user goes to the last page, which holds the 21st image, and
    deletes that image; the refetch of page 3 finds 20 images on 2
    pages. *)
Definition delete_last_on_last_page : list Event :=
  [SetPage 3 (list_ok ["21"] (Some (page_info 3 3 21)));
   DeleteClick (sample_image "21");
   ConfirmDelete (Resolved ())
     (list_ok [] (Some (page_info 3 2 20)))].

(** Mounting, with both answers arriving in the order of the requests. *)
Definition mount_answers : list Action :=
  [Arrives 0 (CategoriesResponse (Resolved (Envelope [nature])));
   Arrives 0 (ListResponse
                (list_ok first_page_ids (Some (page_info 1 3 21))))].

(** The user clicks the Nature filter and at once the All filter; the
    answer for All arrives before the answer for Nature. *)
Definition quick_filter_change : list Action :=
  mount_answers ++
  [ClickFilter "c1"; ClickFilter "All";
   Arrives 1 (ListResponse
                (list_ok first_page_ids (Some (page_info 1 3 21))));
   Arrives 0 (ListResponse (list_ok ["4"; "9"] (Some (page_info 1 1 2))))].

(** The same, but the answer for Nature is so late that the user has
    moved to page 3 of the unfiltered list in between. *)
Definition late_filter_answer : list Action :=
  mount_answers ++
  [ClickFilter "c1"; ClickFilter "All";
   Arrives 1 (ListResponse
                (list_ok first_page_ids (Some (page_info 1 3 21))));
   ClickPage 3;
   Arrives 1 (ListResponse (list_ok ["21"] (Some (page_info 3 3 21))));
   Arrives 0 (ListResponse (list_ok ["4"; "9"] (Some (page_info 1 1 2))))].

(** Page [page] of a gallery of [records] images on [pages] pages. *)
Definition gallery_at (page pages records : Z) : State :=
  fst (fetchImages (setCurrentPage page mounted)
         (list_ok second_page_ids (Some (page_info page pages records)))).

Definition network_error : AxiosError :=
  {| response_message := None; message := Some "Network Error" |}.

Definition server_error : AxiosError :=
  {| response_message := Some "Category is in use";
     message := Some "Request failed with status code 409" |}.

(** Category management with one category loaded. *)
Definition categories_loaded : Categories.State :=
  fst (Categories.fetchCategories Categories.initial
         (Resolved (Envelope [nature]))).

(** The create modal with a name of a space, a tab and a no-break
    space typed in. *)
Definition blank_name_typed : Categories.State :=
  Categories.setCategoryName [32; 9; 160]%N
    (Categories.openCreateModal categories_loaded).

(** The create modal with "Nature" typed in, surrounded by spaces. *)
Definition name_typed : Categories.State :=
  Categories.setCategoryName ([32] ++ cat_name nature ++ [32])%N
    (Categories.openCreateModal categories_loaded).

(** The delete dialog open on the loaded category. *)
Definition delete_dialog_open : Categories.State :=
  Categories.openDeleteModal nature categories_loaded.

(** The delete dialog of the listing open on the first image. *)
Definition image_dialog_open : State :=
  handleDeleteClick (sample_image "1") mounted.

Definition small_file : File :=
  {| file_name := "dune.png"; size := 2048;
     dataURL := "data:image/png;base64,iVBORw0KGgo=" |}.

(** One byte over the ceiling. *)
Definition big_file : File :=
  {| file_name := "huge.png"; size := 10 * 1024 * 1024 + 1;
     dataURL := "data:image/png;base64,AAAA" |}.

(** The upload form with a title, a category and [small_file] staged. *)
Definition form_filled : ImageUpload.State :=
  fst (ImageUpload.handleImageChange (Some small_file)
         (ImageUpload.setCategory "c1"
            (ImageUpload.setTitle "Dune" ImageUpload.initial))).

End Scenario.

(** * Properties *)

(** ** Session store *)

Section SessionStore.
Import AuthContext.

Lemma login_effect (token : string) (s : Session) :
  getItem jwt_key (localStorage (login token s)) = Some token
  ∧ isAuthenticated (login token s) = true.
Proof.
  split; [| reflexivity].
  unfold login, getItem, setItem; simpl. apply lookup_insert_eq.
Qed.

Lemma logout_effect (s : Session) :
  getItem jwt_key (localStorage (logout s)) = None
  ∧ isAuthenticated (logout s) = false.
Proof.
  split; [| reflexivity].
  unfold logout, getItem, removeItem; simpl. apply lookup_delete_eq.
Qed.

Lemma mount_effect (ls : gmap string string) :
  localStorage (mount ls) = ls
  ∧ isAuthenticated (mount ls) = Js.truthy_opt (getItem jwt_key ls).
Proof. split; reflexivity. Qed.

(** Keys other than the token's are never touched. *)
Lemma step_frame (s : Session) (a : Action) (k : string) :
  k ≠ jwt_key →
  getItem k (localStorage (step s a)) = getItem k (localStorage s).
Proof.
  intros Hk. destruct a; simpl; unfold getItem, setItem, removeItem.
  - by rewrite lookup_insert_ne.
  - by rewrite lookup_delete_ne.
  - reflexivity.
Qed.

Lemma settled_mount (ls : gmap string string) :
  storage_clean ls → settled (mount ls).
Proof. intros H. split; [exact H | reflexivity]. Qed.

Lemma settled_step (s : Session) (a : Action) :
  nonempty_login a → settled s → settled (step s a).
Proof.
  intros Ha [Hclean Hinv]. destruct a as [token| |]; simpl in *.
  - split.
    + unfold storage_clean, login, setItem; simpl.
      rewrite lookup_insert_eq. congruence.
    + unfold invariant_truthy, token_truthy.
      destruct (login_effect token s) as [-> ->]. simpl.
      unfold Js.truthy. by rewrite bool_decide_eq_true_2.
  - split.
    + unfold storage_clean, logout, removeItem; simpl.
      by rewrite lookup_delete_eq.
    + unfold invariant_truthy, token_truthy.
      by destruct (logout_effect s) as [-> ->].
  - by apply settled_mount.
Qed.

Lemma settled_run (acts : list Action) (s : Session) :
  Forall nonempty_login acts → settled s → settled (run s acts).
Proof.
  revert s. induction acts as [|a acts IH]; intros s Hall Hs; [exact Hs|].
  inversion Hall; subst. simpl. apply IH; [assumption|].
  by apply settled_step.
Qed.

Lemma settled_stored (s : Session) : settled s → invariant_stored s.
Proof.
  intros [Hclean Hinv]. unfold invariant_stored, token_stored.
  unfold invariant_truthy, token_truthy in Hinv. rewrite Hinv.
  unfold storage_clean in Hclean. unfold getItem.
  destruct (localStorage s !! jwt_key) as [t|] eqn:E; simpl.
  - unfold Js.truthy. split; [eauto|]. intros _.
    apply bool_decide_eq_true_2. congruence.
  - split; [discriminate|]. intros [? ?]; discriminate.
Qed.

(** C1, as amended: for every persisted storage whose token entry, if
    any, is non-empty, and every sequence of logins with non-empty
    tokens, logouts and reloads, the provider's [isAuthenticated] is
    true exactly when a token is stored, under both readings of
    presence; [login] stores the token and sets the flag, [logout]
    removes it and clears the flag, and mounting seeds the flag from
    the stored token. *)
Theorem session_invariant_nonempty_tokens
    (ls : gmap string string) (acts : list Action) :
  storage_clean ls →
  Forall nonempty_login acts →
  invariant_stored (run (mount ls) acts)
  ∧ invariant_truthy (run (mount ls) acts)
  ∧ (∀ token s, getItem jwt_key (localStorage (login token s)) = Some token
                ∧ isAuthenticated (login token s) = true)
  ∧ (∀ s, getItem jwt_key (localStorage (logout s)) = None
          ∧ isAuthenticated (logout s) = false)
  ∧ isAuthenticated (mount ls) = Js.truthy_opt (getItem jwt_key ls).
Proof.
  intros Hclean Hall.
  assert (Hs : settled (run (mount ls) acts))
    by (apply settled_run; [assumption | by apply settled_mount]).
  split; [by apply settled_stored|].
  split; [apply Hs|].
  split; [apply login_effect|].
  split; [apply logout_effect | reflexivity].
Qed.

Lemma session_invariant_nonempty_tokens_witness :
  let acts := [Login "abc"; Reload; Logout; Login "def"] in
  invariant_stored (run (mount ∅) acts)
  ∧ invariant_truthy (run (mount ∅) acts).
Proof.
  intros acts.
  destruct (session_invariant_nonempty_tokens ∅ acts) as (H1 & H2 & _).
  - unfold storage_clean. rewrite lookup_empty. discriminate.
  - repeat constructor; simpl; discriminate.
  - split; assumption.
Defined.

(** C1 fails for the empty token: after [login("")] the flag is true
    although the stored entry is not a token for the mount effect, and
    after a reload the flag is false although an entry is stored. *)
Lemma session_invariant_empty_token_fails :
  ¬ (∀ acts, invariant_truthy (run (mount ∅) acts))
  ∧ ¬ (∀ acts, invariant_stored (run (mount ∅) acts)).
Proof.
  split; intros H.
  - specialize (H [Login ""]). vm_compute in H. discriminate.
  - specialize (H [Login ""; Reload]). destruct H as [_ H].
    assert (Hf : isAuthenticated (run (mount ∅) [Login ""; Reload]) = false)
      by (vm_compute; reflexivity).
    rewrite Hf in H. 
    assert (discr : false = true → False) by discriminate.
    apply discr, H. exists "". vm_compute. reflexivity.
Qed.

End SessionStore.

(** ** Image listing controller *)

Section ListingController.
Import Http Model ImageListing.

(** Case analysis on the outcome of a list request. *)
Ltac list_outcome res :=
  destruct res as [[body|]|err]; simpl;
  [ destruct (success body); simpl;
    [ destruct (data body), (body_pagination body); simpl |] | | ].

Lemma fetchImages_requests (s : State) (res : ListOutcome) :
  snd (fetchImages s res) = [images_request s].
Proof. reflexivity. Qed.

Lemma fetchImages_deps (s : State) (res : ListOutcome) :
  currentPage (fst (fetchImages s res)) = currentPage s
  ∧ selectedCategory (fst (fetchImages s res)) = selectedCategory s.
Proof. list_outcome res; split; reflexivity. Qed.

Lemma fetchImages_loading (s : State) (res : ListOutcome) :
  loading (fst (fetchImages s res)) = false.
Proof. reflexivity. Qed.

(** The pagination held after a fetch: the response's when a
    successful body brings one, the previous one otherwise. *)
Lemma fetchImages_pagination (s : State) (res : ListOutcome) :
  pagination (fst (fetchImages s res)) =
  match res with
  | Resolved (Some body) =>
      if success body then
        match body_pagination body with
        | Some p => Some p
        | None => pagination s
        end
      else pagination s
  | _ => pagination s
  end.
Proof. list_outcome res; reflexivity. Qed.

Lemma or_else_fallback_truthy (a : option string) (b : string) :
  Js.truthy b = true → Js.truthy (Js.or_else a b) = true.
Proof.
  intros Hb. destruct a as [x|]; simpl; [|exact Hb].
  destruct (Js.truthy x) eqn:E; assumption.
Qed.

Lemma or_else2_fallback_truthy (a b : option string) (c : string) :
  Js.truthy c = true → Js.truthy (Js.or_else2 a b c) = true.
Proof.
  intros Hc. destruct a as [x|]; simpl.
  - destruct (Js.truthy x) eqn:E; [assumption|].
    by apply or_else_fallback_truthy.
  - by apply or_else_fallback_truthy.
Qed.

(** C5, as amended: for every list response whose body has [success]
    set, [fetchImages] replaces the whole image collection by the
    response's [data] (by the empty list when [data] is not an array),
    clears the error and the loading flag, and replaces the pagination
    when the response carries one; a response without pagination
    leaves the previously held pagination in place. *)
Theorem fetch_success_replaces_collection
    (s : State) (body : ListBody) :
  success body = true →
  let s' := fst (fetchImages s (Resolved (Some body))) in
  images s' = default [] (data body)
  ∧ pagination s' = from_option Some (pagination s) (body_pagination body)
  ∧ error s' = ""
  ∧ loading s' = false.
Proof.
  intros Hok. simpl. rewrite Hok.
  destruct (data body), (body_pagination body); simpl; auto.
Qed.

(** C6, as amended: for every failed list request, [fetchImages] sets
    a non-empty error message (the server's message, else the error's
    own message, else a fixed fallback) and clears the loading flag, so
    the view shows the error panel in place of the grid; the images and
    the pagination held in state are left as they were. *)
Theorem fetch_failure_sets_error (s : State) (err : AxiosError) :
  let s' := fst (fetchImages s (Rejected err)) in
  error s' =
    Js.or_else2 (response_message err) (message err) "Failed to fetch images"
  ∧ loading s' = false
  ∧ render s' = ErrorPanel (error s')
  ∧ images s' = images s
  ∧ pagination s' = pagination s.
Proof.
  simpl. repeat split.
  unfold render; simpl.
  by rewrite or_else2_fallback_truthy.
Qed.

Lemma setCurrentPage_same (s : State) :
  setCurrentPage (currentPage s) s = s.
Proof. by destruct s. Qed.

Lemma handlePageChange_rejected (n : Z) (s : State) :
  n < 1 ∨ pagination s = None
  ∨ (∃ p, pagination s = Some p ∧ Pagination.totalPages p < n) →
  handlePageChange n s = s.
Proof.
  unfold handlePageChange.
  intros [Hlow | [Hnone | (p & Hp & Hhigh)]].
  - destruct (pagination s); [|reflexivity].
    replace (1 <=? n) with false; [reflexivity|]. symmetry.
    apply Z.leb_gt. exact Hlow.
  - by rewrite Hnone.
  - rewrite Hp. replace (n <=? Pagination.totalPages p) with false.
    + by rewrite andb_false_r.
    + symmetry. apply Z.leb_gt. exact Hhigh.
Qed.

Lemma handlePageChange_accepted (n : Z) (s : State) (p : Pagination.t) :
  pagination s = Some p → 1 ≤ n ≤ Pagination.totalPages p →
  handlePageChange n s = setCurrentPage n s.
Proof.
  intros Hp [H1 H2]. unfold handlePageChange. rewrite Hp.
  replace (1 <=? n) with true by (symmetry; apply Z.leb_le; exact H1).
  replace (n <=? Pagination.totalPages p) with true
    by (symmetry; apply Z.leb_le; exact H2).
  reflexivity.
Qed.

Lemma after_render_same (s : State) (res : ListOutcome) :
  after_render s s res = (s, []).
Proof.
  unfold after_render, deps_changed.
  rewrite bool_decide_eq_false_2; [reflexivity|]. intros H. by apply H.
Qed.

(** C3, as amended: [setPage(n)] leaves the whole state unchanged and
    issues no request when [n < 1], when no pagination has been fetched
    or when [n] exceeds its [totalPages]; when [1 <= n <= totalPages]
    it sets [currentPage] to [n], and the list is fetched again, with
    [page = n], exactly when [n] differs from the page the controller
    was on: for [n] equal to the current page nothing changes and no
    request is issued. *)
Theorem setPage_behaviour (n : Z) (s : State) (res : ListOutcome) :
  (n < 1 ∨ pagination s = None
   ∨ (∃ p, pagination s = Some p ∧ Pagination.totalPages p < n) →
   step s (SetPage n res) = (s, []))
  ∧ (∀ p, pagination s = Some p → 1 ≤ n ≤ Pagination.totalPages p →
      handlePageChange n s = setCurrentPage n s
      ∧ currentPage (fst (step s (SetPage n res))) = n
      ∧ (n ≠ currentPage s →
         snd (step s (SetPage n res)) =
           [images_request (setCurrentPage n s)]
         ∧ images_request (setCurrentPage n s) =
             GetImages n limit
               (if bool_decide (selectedCategory s ≠ "All")
                then Some (selectedCategory s) else None))
      ∧ (n = currentPage s → step s (SetPage n res) = (s, []))).
Proof.
  split.
  - intros H. simpl. rewrite handlePageChange_rejected by exact H.
    apply after_render_same.
  - intros p Hp Hn. simpl.
    rewrite (handlePageChange_accepted n s p Hp Hn).
    split; [reflexivity|]. split; [|split].
    + unfold after_render. destruct (deps_changed _ _); [|reflexivity].
      apply fetchImages_deps.
    + intros Hne. unfold after_render, deps_changed.
      rewrite bool_decide_eq_true_2.
      * split; reflexivity.
      * unfold deps; simpl. intros E. apply Hne. congruence.
    + intros ->. rewrite setCurrentPage_same. apply after_render_same.
Qed.

(** C4: [setFilter(category)] leaves the controller with that category
    as its filter and [currentPage = 1]; every request it gives rise
    to is a list request with [page = 1], and when the filter changes
    exactly one such request is issued, carrying the new category
    unless it is ['All']. *)
Theorem setFilter_resets_page
    (categoryId : string) (s : State) (res : ListOutcome) :
  let s' := fst (step s (SetFilter categoryId res)) in
  let reqs := snd (step s (SetFilter categoryId res)) in
  selectedCategory (handleCategoryChange categoryId s) = categoryId
  ∧ currentPage (handleCategoryChange categoryId s) = 1
  ∧ selectedCategory s' = categoryId
  ∧ currentPage s' = 1
  ∧ Forall (λ r, ∃ cat, r = GetImages 1 limit cat) reqs
  ∧ (selectedCategory s ≠ categoryId →
     reqs = [GetImages 1 limit
               (if bool_decide (categoryId ≠ "All")
                then Some categoryId else None)]).
Proof.
  simpl. split; [reflexivity|]. split; [reflexivity|].
  unfold after_render.
  destruct (deps_changed s (handleCategoryChange categoryId s)) eqn:E.
  - destruct (fetchImages_deps (handleCategoryChange categoryId s) res)
      as [Hp Hc].
    rewrite Hp, Hc. simpl.
    split; [reflexivity|]. split; [reflexivity|].
    split; [|reflexivity].
    repeat constructor. eexists. reflexivity.
  - simpl. split; [reflexivity|]. split; [reflexivity|].
    split; [constructor|].
    intros Hne. unfold deps_changed in E.
    apply bool_decide_eq_false_1 in E. exfalso. apply E.
    unfold deps; simpl. intros Heq. apply Hne. congruence.
Qed.

Lemma ranged_ext (s s' : State) :
  currentPage s' = currentPage s → pagination s' = pagination s →
  ranged s → ranged s'.
Proof.
  unfold ranged, page_in_range. intros -> ->. tauto.
Qed.

Lemma fetchImages_ranged (s : State) (res : ListOutcome) :
  ranged s → covers (currentPage s) res → ranged (fst (fetchImages s res)).
Proof.
  intros [Hlow Hin] Hcov. unfold ranged, page_in_range.
  destruct (fetchImages_deps s res) as [-> _].
  rewrite fetchImages_pagination.
  split; [exact Hlow|]. intros p Hp Hrec.
  destruct res as [[body|]|err]; simpl in *; try (by apply Hin).
  destruct (success body) eqn:Hs; [|by apply Hin].
  destruct (body_pagination body) as [q|]; [|by apply Hin].
  injection Hp as ->. split; [exact Hlow | by apply Hcov].
Qed.

Lemma handlePageChange_ranged (n : Z) (s : State) :
  ranged s → ranged (handlePageChange n s).
Proof.
  intros Hs. unfold handlePageChange.
  destruct (pagination s) as [p|] eqn:Hp; [|exact Hs].
  destruct ((1 <=? n) && (n <=? Pagination.totalPages p)) eqn:E;
    [|exact Hs].
  apply andb_true_iff in E as [H1 H2].
  apply Z.leb_le in H1. apply Z.leb_le in H2.
  split; [exact H1|]. intros q Hq _. simpl in *.
  rewrite Hp in Hq. injection Hq as <-. split; assumption.
Qed.

Lemma handleCategoryChange_ranged (c : string) (s : State) :
  ranged s → ranged (handleCategoryChange c s).
Proof.
  intros [Hlow Hin]. split; simpl; [lia|].
  intros p Hp Hrec. specialize (Hin p Hp Hrec). simpl. lia.
Qed.

Lemma fetchImages_cut (s : State) (res : ListOutcome) :
  fetchImages s res = (fetch_settle res (fetch_start s), [images_request s]).
Proof. reflexivity. Qed.

Lemma fetch_settle_paging (res : ListOutcome) (s : State) :
  currentPage (fetch_settle res s) = currentPage s
  ∧ pagination (fetch_settle res s) =
    match res with
    | Resolved (Some body) =>
        if success body then
          match body_pagination body with
          | Some p => Some p
          | None => pagination s
          end
        else pagination s
    | _ => pagination s
    end.
Proof. list_outcome res; split; reflexivity. Qed.

Lemma fetch_settle_ranged (res : ListOutcome) (s : State) :
  ranged s → covers (currentPage s) res → ranged (fetch_settle res s).
Proof.
  intros [Hlow Hin] Hcov. unfold ranged, page_in_range.
  destruct (fetch_settle_paging res s) as [-> ->].
  split; [exact Hlow|]. intros p Hp Hrec.
  destruct res as [[body|]|err]; simpl in *; try (by apply Hin).
  destruct (success body) eqn:Hs; [|by apply Hin].
  destruct (body_pagination body) as [q|]; [|by apply Hin].
  injection Hp as ->. split; [exact Hlow | by apply Hcov].
Qed.

Lemma handlePageChange_low (n : Z) (s : State) :
  1 ≤ currentPage s → 1 ≤ currentPage (handlePageChange n s).
Proof.
  intros Hs. unfold handlePageChange.
  destruct (pagination s) as [p|]; [|exact Hs].
  destruct ((1 <=? n) && (n <=? Pagination.totalPages p)) eqn:E;
    [|exact Hs].
  apply andb_true_iff in E as [H1 _]. by apply Z.leb_le in H1.
Qed.

Lemma rerender_cells (prev next : State) (sent : list InFlight) :
  currentPage (cells (rerender prev next sent)) = currentPage next
  ∧ pagination (cells (rerender prev next sent)) = pagination next.
Proof. unfold rerender. by destruct (deps_changed prev next). Qed.

(** Every action but a click on a filter or on a page leaves
    [currentPage] alone. *)
Lemma act_current_page (p : Page) (a : Action) :
  (∀ c, a ≠ ClickFilter c) → (∀ n, a ≠ ClickPage n) →
  currentPage (cells (act p a)) = currentPage (cells p).
Proof.
  intros Hf Hp.
  destruct a as [c|n|img| | | |i r]; cbn [act];
    try reflexivity.
  - by destruct (Hf c).
  - by destruct (Hp n).
  - by destruct (imageToDelete (cells p)).
  - destruct (in_flight p !! i) as [[|req closes|id refetch]|],
      r as [cats|res|[u|err]]; try reflexivity.
    + cbn [cells]. by destruct cats as [[l|l| |]|err].
    + cbn [cells].
      destruct (fetch_settle_paging res (cells p)) as [Hc _].
      by destruct closes.
Qed.

Lemma act_low (p : Page) (a : Action) :
  1 ≤ currentPage (cells p) → 1 ≤ currentPage (cells (act p a)).
Proof.
  intros Hs. destruct a as [c|n|img| | | |i r].
  - cbn [act]. destruct (rerender_cells (cells p)
                  (handleCategoryChange c (cells p)) (in_flight p))
      as [-> _]. simpl. lia.
  - cbn [act]. destruct (rerender_cells (cells p)
                  (handlePageChange n (cells p)) (in_flight p))
      as [-> _]. by apply handlePageChange_low.
  - by rewrite act_current_page.
  - by rewrite act_current_page.
  - by rewrite act_current_page.
  - by rewrite act_current_page.
  - by rewrite act_current_page.
Qed.

Lemma play_low (acts : list Action) (p : Page) :
  1 ≤ currentPage (cells p) → 1 ≤ currentPage (cells (play p acts)).
Proof.
  revert p. induction acts as [|a acts IH]; intros p Hp; [exact Hp|].
  simpl. apply IH. by apply act_low.
Qed.

Lemma act_ranged (p : Page) (a : Action) :
  ranged (cells p) →
  match stored_response p a with
  | Some res => covers (currentPage (cells p)) res
  | None => True
  end →
  ranged (cells (act p a)).
Proof.
  intros Hs Hcov. destruct a as [c|n|img| | | |i r]; cbn [act].
  - destruct (rerender_cells (cells p)
                (handleCategoryChange c (cells p)) (in_flight p))
      as [Hc Hp].
    eapply ranged_ext; [exact Hc | exact Hp |].
    by apply handleCategoryChange_ranged.
  - destruct (rerender_cells (cells p)
                (handlePageChange n (cells p)) (in_flight p))
      as [Hc Hp].
    eapply ranged_ext; [exact Hc | exact Hp |].
    by apply handlePageChange_ranged.
  - eapply ranged_ext; [| |exact Hs]; reflexivity.
  - eapply ranged_ext; [| |exact Hs]; reflexivity.
  - destruct (imageToDelete (cells p)); [|exact Hs].
    eapply ranged_ext; [| |exact Hs]; reflexivity.
  - eapply ranged_ext; [| |exact Hs]; reflexivity.
  - cbn [stored_response] in Hcov.
    destruct (in_flight p !! i) as [[|req closes|id refetch]|],
      r as [cats|res|[u|err]]; try exact Hs.
    + cbn [cells]. eapply ranged_ext; [| |exact Hs];
        by destruct cats as [[l|l| |]|e].
    + cbn [cells].
      pose proof (fetch_settle_ranged res (cells p) Hs Hcov) as H.
      destruct closes; [|exact H].
      eapply ranged_ext; [| |exact H]; reflexivity.
Qed.

Lemma play_ranged (acts : list Action) (p : Page) :
  ranged (cells p) → arrivals_cover p acts → ranged (cells (play p acts)).
Proof.
  revert p. induction acts as [|a acts IH]; intros p Hp Hc; [exact Hp|].
  destruct Hc as [Ha Hrest]. simpl. apply IH; [|exact Hrest].
  by apply act_ranged.
Qed.

Lemma mounting_ranged : ranged (cells mounting).
Proof. split; [simpl; lia|]. intros p Hp. discriminate. Qed.

(** With every request answered before anything else happens, the
    actions do what [step] does. *)
Lemma one_at_a_time_step (s : State) (ev : Event) :
  play {| cells := s; in_flight := [] |} (one_at_a_time ev)
  = {| cells := fst (step s ev); in_flight := [] |}.
Proof.
  destruct ev as [c res|n res|img| |del refetch|res]; simpl.
  - unfold rerender, after_render.
    by destruct (deps_changed s (handleCategoryChange c s)).
  - unfold rerender, after_render.
    by destruct (deps_changed s (handlePageChange n s)).
  - reflexivity.
  - reflexivity.
  - unfold confirmDelete. destruct (imageToDelete s) as [img|];
      [|reflexivity].
    by destruct del as [u|err].
  - reflexivity.
Qed.

Lemma one_at_a_time_run (evs : list Event) (s : State) :
  play {| cells := s; in_flight := [] |} (concat (one_at_a_time <$> evs))
  = {| cells := run s evs; in_flight := [] |}.
Proof.
  revert s. induction evs as [|ev evs IH]; intros s; [reflexivity|].
  simpl. unfold play in *. rewrite foldl_app.
  fold (play {| cells := s; in_flight := [] |} (one_at_a_time ev)).
  rewrite one_at_a_time_step. apply IH.
Qed.

(** Every state of [run] is a state of the page with requests in
    flight: the one in which each answer arrives at once. *)
Lemma runs_are_plays
    (cats : Outcome CategoriesData) (res : ListOutcome) (evs : list Event) :
  play mounting
    ([Arrives 0 (CategoriesResponse cats); Arrives 0 (ListResponse res)]
     ++ concat (one_at_a_time <$> evs))
  = {| cells := run (fst (mount cats res)) evs; in_flight := [] |}.
Proof.
  unfold play. rewrite foldl_app.
  replace (foldl act mounting
             [Arrives 0 (CategoriesResponse cats);
              Arrives 0 (ListResponse res)])
    with {| cells := fst (mount cats res); in_flight := [] |}.
  - apply one_at_a_time_run.
  - by destruct cats as [[l|l| |]|err].
Qed.

(** C2, as amended: in every state the listing can reach, with answers
    arriving in any order, [currentPage] is at least 1; [setPage] and
    [setFilter] keep it within [1, totalPages] of the pagination held;
    a list response stores its pagination without adjusting
    [currentPage], so [currentPage] lies in [1, totalPages] of the
    pagination held (when its [totalRecords > 0]) along every sequence
    of operations and arrivals in which each stored list response that
    reports records reports at least as many pages as the page the
    controller is on when the response arrives. *)
Theorem page_in_range_when_answers_cover (acts : list Action) :
  1 ≤ currentPage (cells (play mounting acts))
  ∧ (arrivals_cover mounting acts →
     page_in_range (cells (play mounting acts)))
  ∧ (∀ s n, ranged s → ranged (handlePageChange n s))
  ∧ (∀ s c, ranged s → ranged (handleCategoryChange c s)).
Proof.
  split; [apply play_low; simpl; lia|].
  split.
  - intros Hc. by apply (play_ranged acts mounting mounting_ranged Hc).
  - split; intros; [by apply handlePageChange_ranged|].
    by apply handleCategoryChange_ranged.
Qed.

Lemma page_in_range_when_answers_cover_witness :
  let p := play mounting Scenario.quick_filter_change in
  in_flight p = []
  ∧ selectedCategory (cells p) = "All"
  ∧ pagination (cells p) = Some (Scenario.page_info 1 1 2)
  ∧ 1 ≤ currentPage (cells p)
  ∧ page_in_range (cells p).
Proof.
  intros p.
  destruct (page_in_range_when_answers_cover Scenario.quick_filter_change)
    as (Hlow & Hin & _).
  split; [reflexivity|]. split; [reflexivity|]. split; [reflexivity|].
  split; [exact Hlow|]. apply Hin.
  simpl. repeat split; intros _ _; lia.
Defined.

(** Why the condition is on the page at arrival: when the answer to an
    abandoned filter arrives after the user has moved to page 3, every
    response reports enough pages for the request it answers, and yet
    the controller holds [currentPage = 3] against [totalPages = 1]. *)
Lemma late_answer_leaves_range :
  let p := play mounting Scenario.late_filter_answer in
  currentPage (cells p) = 3
  ∧ pagination (cells p) = Some (Scenario.page_info 1 1 2)
  ∧ ¬ page_in_range (cells p)
  ∧ ¬ arrivals_cover mounting Scenario.late_filter_answer.
Proof.
  intros p.
  assert (Hp : pagination (cells p) = Some (Scenario.page_info 1 1 2))
    by reflexivity.
  assert (Hc : currentPage (cells p) = 3) by reflexivity.
  assert (Hout : ¬ page_in_range (cells p)).
  { intros H. specialize (H _ Hp). rewrite Hc in H. simpl in H. lia. }
  split; [exact Hc|]. split; [exact Hp|]. split; [exact Hout|].
  intros Hcov. apply Hout.
  apply (play_ranged Scenario.late_filter_answer mounting
           mounting_ranged Hcov).
Qed.

(** C2 fails on the code: on the last page of three, deleting its only
    image makes the refetch of page 3 answer with 20 records on 2
    pages; the controller then holds [currentPage = 3] against
    [totalPages = 2]. *)
Lemma delete_on_last_page_leaves_range :
  let s := run Scenario.mounted Scenario.delete_last_on_last_page in
  currentPage s = 3
  ∧ pagination s = Some (Scenario.page_info 3 2 20)
  ∧ 0 < Pagination.totalRecords (Scenario.page_info 3 2 20)
  ∧ ¬ page_in_range s.
Proof.
  intros s.
  assert (Hp : pagination s = Some (Scenario.page_info 3 2 20))
    by (vm_compute; reflexivity).
  assert (Hc : currentPage s = 3) by (vm_compute; reflexivity).
  split; [exact Hc|]. split; [exact Hp|]. split; [simpl; lia|].
  intros H. specialize (H _ Hp). rewrite Hc in H. simpl in H. lia.
Qed.

Lemma setPage_behaviour_witness :
  let s := Scenario.on_second_page in
  let res := Scenario.list_ok ["21"] (Some (Scenario.page_info 3 3 21)) in
  step s (SetPage 0 res) = (s, [])
  ∧ currentPage (fst (step s (SetPage 3 res))) = 3
  ∧ snd (step s (SetPage 3 res)) = [GetImages 3 10 None].
Proof.
  intros s res.
  destruct (setPage_behaviour 0 s res) as [Hno _].
  destruct (setPage_behaviour 3 s res) as [_ Hyes].
  assert (Hp : pagination s = Some (Scenario.page_info 2 3 21))
    by (vm_compute; reflexivity).
  assert (Hn : 1 ≤ 3 ≤ Pagination.totalPages (Scenario.page_info 2 3 21))
    by (simpl; lia).
  destruct (Hyes _ Hp Hn) as (_ & Hcur & Hreq & _).
  assert (Hne : 3 ≠ currentPage s) by (vm_compute; discriminate).
  destruct (Hreq Hne) as [Hsnd Hget].
  split; [apply Hno; left; lia|]. split; [exact Hcur|].
  rewrite Hsnd, Hget. vm_compute. reflexivity.
Defined.

(** C3 fails on the code for [n] equal to the current page: on page 2
    of 3, [setPage(2)] passes the guard, yet no list request is
    issued. *)
Lemma setPage_current_page_no_fetch :
  let s := Scenario.on_second_page in
  let res :=
    Scenario.list_ok Scenario.second_page_ids
      (Some (Scenario.page_info 2 3 21)) in
  pagination s = Some (Scenario.page_info 2 3 21)
  ∧ 1 ≤ 2 ≤ Pagination.totalPages (Scenario.page_info 2 3 21)
  ∧ snd (step s (SetPage 2 res)) = []
  ∧ ¬ (∃ cat, GetImages 2 limit cat ∈ snd (step s (SetPage 2 res))).
Proof.
  intros s res.
  assert (Hreq : snd (step s (SetPage 2 res)) = [])
    by (vm_compute; reflexivity).
  split; [vm_compute; reflexivity|]. split; [simpl; lia|].
  split; [exact Hreq|].
  rewrite Hreq. intros [cat Hin]. by apply not_elem_of_nil in Hin.
Qed.

Lemma fetch_success_replaces_collection_witness :
  let body := {| success := true;
                 data := Some [Scenario.sample_image "11"];
                 body_pagination := Some (Scenario.page_info 2 3 21) |} in
  let s' := fst (fetchImages Scenario.mounted (Resolved (Some body))) in
  images s' = [Scenario.sample_image "11"]
  ∧ pagination s' = Some (Scenario.page_info 2 3 21)
  ∧ error s' = ""
  ∧ loading s' = false.
Proof.
  intros body s'.
  exact (fetch_success_replaces_collection Scenario.mounted body eq_refl).
Defined.

(** C5 fails on the code: a successful response that carries no
    pagination replaces the images but leaves the pagination of the
    earlier fetch in state. *)
Lemma fetch_success_keeps_old_pagination :
  let s := Scenario.on_second_page in
  let body := {| success := true;
                 data := Some [Scenario.sample_image "1"];
                 body_pagination := None |} in
  let s' := fst (fetchImages s (Resolved (Some body))) in
  images s' = [Scenario.sample_image "1"]
  ∧ pagination s' = Some (Scenario.page_info 2 3 21)
  ∧ pagination s' ≠ body_pagination body.
Proof.
  intros s body s'.
  assert (Hp : pagination s' = Some (Scenario.page_info 2 3 21))
    by (vm_compute; reflexivity).
  split; [vm_compute; reflexivity|]. split; [exact Hp|].
  rewrite Hp. discriminate.
Qed.

(** C6 fails on the code: after a failed fetch the images of the
    earlier fetch are still in the controller's state. *)
Lemma fetch_failure_keeps_images :
  let s := Scenario.on_second_page in
  let s' := fst (fetchImages s (Rejected Scenario.network_error)) in
  images s' = map Scenario.sample_image Scenario.second_page_ids
  ∧ images s' ≠ []
  ∧ error s' = "Network Error".
Proof.
  intros s s'.
  assert (Hi : images s' =
               map Scenario.sample_image Scenario.second_page_ids)
    by (vm_compute; reflexivity).
  split; [exact Hi|]. split; [|vm_compute; reflexivity].
  rewrite Hi. discriminate.
Qed.

End ListingController.

(** ** Client-side validation *)

Section Validation.
Import Http Model.

Lemma trimStart_blank (s : list N) :
  Forall (λ c, Js.is_white_space c = true) s → Js.trimStart s = [].
Proof.
  induction 1 as [|c s Hc _ IH]; [reflexivity|].
  simpl. by rewrite Hc.
Qed.

Lemma trimStart_nil_blank (s : list N) :
  Js.trimStart s = [] → Forall (λ c, Js.is_white_space c = true) s.
Proof.
  induction s as [|c s IH]; [constructor|].
  simpl. destruct (Js.is_white_space c) eqn:E; [|discriminate].
  intros H. constructor; [exact E | by apply IH].
Qed.

(** [trim] yields the empty string exactly on the strings made of
    white space only, the empty string among them. *)
Lemma trim_blank_iff (s : list N) :
  Js.trim s = [] ↔ Forall (λ c, Js.is_white_space c = true) s.
Proof.
  unfold Js.trim, Js.trimEnd. split.
  - intros H. apply trimStart_nil_blank.
    apply (f_equal (@rev N)) in H. rewrite rev_involutive in H.
    simpl in H. apply trimStart_nil_blank in H.
    apply Forall_rev in H. rewrite rev_involutive in H.
    destruct (Js.trimStart s) as [|c r] eqn:E; [reflexivity|].
    exfalso. inversion H as [|? ? Hc _]; subst.
    clear H. revert E. induction s as [|d s IH]; simpl; [discriminate|].
    destruct (Js.is_white_space d) eqn:Ed; [exact IH|].
    intros [= -> ->]. congruence.
  - intros H. by rewrite (trimStart_blank s H).
Qed.

(** C9: a selected file larger than 10 * 1024 * 1024 bytes only sets
    the size error and issues no request; saving a category whose name
    is empty or made of white space only sets the inline error of the
    modal and issues no request. *)
Theorem client_side_validation
    (us : ImageUpload.State) (f : File)
    (cs : Categories.State) (save : Outcome unit)
    (refetch : Outcome CategoriesData) :
  10 * 1024 * 1024 < size f →
  Forall (λ c, Js.is_white_space c = true) (Categories.categoryName cs) →
  ImageUpload.handleImageChange (Some f) us =
    (ImageUpload.setError "File size must be less than 10MB" us, [])
  ∧ Categories.handleSave cs save refetch =
      (Categories.setModalError "Category name is required" cs, []).
Proof.
  intros Hsize Hblank. split.
  - unfold ImageUpload.handleImageChange, ImageUpload.max_size.
    replace (10 * 1024 * 1024 <? size f) with true; [reflexivity|].
    symmetry. by apply Z.ltb_lt.
  - unfold Categories.handleSave.
    apply trim_blank_iff in Hblank. by rewrite Hblank.
Qed.

(** C10: rejecting an oversized file changes the [error] cell only; an
    image staged earlier and its preview stay in place, and submitting
    the form afterwards uploads that earlier file. *)
Theorem oversized_file_keeps_staged_image
    (s : ImageUpload.State) (f g : File) (res : Outcome unit) :
  10 * 1024 * 1024 < size f →
  ImageUpload.image s = Some g →
  let s' := fst (ImageUpload.handleImageChange (Some f) s) in
  s' = ImageUpload.setError "File size must be less than 10MB" s
  ∧ ImageUpload.error s' = "File size must be less than 10MB"
  ∧ ImageUpload.image s' = Some g
  ∧ ImageUpload.preview s' = ImageUpload.preview s
  ∧ ImageUpload.title s' = ImageUpload.title s
  ∧ ImageUpload.category s' = ImageUpload.category s
  ∧ ImageUpload.loading s' = ImageUpload.loading s
  ∧ ImageUpload.success s' = ImageUpload.success s
  ∧ ImageUpload.categories s' = ImageUpload.categories s
  ∧ snd (ImageUpload.handleSubmit s' res) =
      [UploadImage (ImageUpload.title s) (ImageUpload.category s) g].
Proof.
  intros Hsize Hg.
  unfold ImageUpload.handleImageChange, ImageUpload.max_size.
  replace (10 * 1024 * 1024 <? size f) with true
    by (symmetry; by apply Z.ltb_lt).
  simpl. repeat (split; [first [reflexivity | exact Hg]|]).
  unfold ImageUpload.handleSubmit. simpl. by rewrite Hg.
Qed.

Lemma client_side_validation_witness :
  ImageUpload.handleImageChange (Some Scenario.big_file)
      Scenario.form_filled =
    (ImageUpload.setError "File size must be less than 10MB"
       Scenario.form_filled, [])
  ∧ Categories.handleSave Scenario.blank_name_typed (Resolved ())
      (Resolved (Envelope [Scenario.nature])) =
      (Categories.setModalError "Category name is required"
         Scenario.blank_name_typed, []).
Proof.
  apply client_side_validation.
  - simpl. lia.
  - simpl. repeat constructor.
Defined.

Lemma oversized_file_keeps_staged_image_witness :
  let s' :=
    fst (ImageUpload.handleImageChange (Some Scenario.big_file)
           Scenario.form_filled) in
  ImageUpload.image s' = Some Scenario.small_file
  ∧ ImageUpload.preview s' = dataURL Scenario.small_file
  ∧ snd (ImageUpload.handleSubmit s' (Resolved ())) =
      [UploadImage "Dune" "c1" Scenario.small_file].
Proof.
  intros s'.
  assert (Hsize : 10 * 1024 * 1024 < size Scenario.big_file)
    by (simpl; lia).
  assert (Hg : ImageUpload.image Scenario.form_filled =
               Some Scenario.small_file) by reflexivity.
  destruct (oversized_file_keeps_staged_image Scenario.form_filled
              Scenario.big_file Scenario.small_file (Resolved ())
              Hsize Hg)
    as (_ & _ & Himg & Hprev & _ & _ & _ & _ & _ & Hreq).
  split; [exact Himg|]. split; [exact Hprev | exact Hreq].
Defined.

End Validation.

(** ** Mutation flows *)

Section MutationFlows.
Import Http Model.

Lemma categories_fetch_frame
    (s : Categories.State) (res : Outcome CategoriesData) :
  let s' := fst (Categories.fetchCategories s res) in
  Categories.showModal s' = Categories.showModal s
  ∧ Categories.showDeleteModal s' = Categories.showDeleteModal s
  ∧ Categories.categoryName s' = Categories.categoryName s
  ∧ snd (Categories.fetchCategories s res) = [GetCategories].
Proof. destruct res as [[l|l| |]|err]; repeat split. Qed.

(** The collection after a fetch does not depend on any cell of the
    state but the collection itself. *)
Lemma categories_fetch_collection
    (s t : Categories.State) (res : Outcome CategoriesData) :
  Categories.categories s = Categories.categories t →
  Categories.categories (fst (Categories.fetchCategories s res)) =
  Categories.categories (fst (Categories.fetchCategories t res)).
Proof. intros H. destruct res as [[l|l| |]|err]; simpl; auto. Qed.

Lemma images_fetch_collection
    (s t : ImageListing.State) (res : ImageListing.ListOutcome) :
  ImageListing.images s = ImageListing.images t →
  ImageListing.images (fst (ImageListing.fetchImages s res)) =
  ImageListing.images (fst (ImageListing.fetchImages t res)).
Proof.
  intros H. destruct res as [[body|]|err]; simpl; auto.
  destruct (ImageListing.success body); simpl; auto.
  destruct (ImageListing.data body), (ImageListing.body_pagination body);
    reflexivity.
Qed.

Lemma handleSave_success
    (s : Categories.State) (request : Request)
    (refetch : Outcome CategoriesData) :
  Js.trim (Categories.categoryName s) ≠ [] →
  Categories.save_request s = Some request →
  let r := Categories.handleSave s (Resolved ()) refetch in
  Categories.showModal (fst r) = false
  ∧ snd r = [request; GetCategories]
  ∧ Categories.categories (fst r) =
      Categories.categories (fst (Categories.fetchCategories s refetch)).
Proof.
  intros Hname Hreq. unfold Categories.handleSave.
  destruct (Js.trim (Categories.categoryName s)) as [|u w] eqn:E; [done|].
  simpl. rewrite Hreq.
  destruct refetch as [[l|l| |]|err]; repeat split.
Qed.

Lemma handleSave_failure
    (s : Categories.State) (request : Request) (err : AxiosError)
    (refetch : Outcome CategoriesData) :
  Js.trim (Categories.categoryName s) ≠ [] →
  Categories.save_request s = Some request →
  let r := Categories.handleSave s (Rejected err) refetch in
  Categories.showModal (fst r) = Categories.showModal s
  ∧ Categories.modalError (fst r) =
      Js.or_else (response_message err) "Failed to save category"
  ∧ Categories.categoryName (fst r) = Categories.categoryName s
  ∧ snd r = [request]
  ∧ Categories.categories (fst r) = Categories.categories s.
Proof.
  intros Hname Hreq. unfold Categories.handleSave.
  destruct (Js.trim (Categories.categoryName s)) as [|u w] eqn:E; [done|].
  simpl. rewrite Hreq. repeat split.
Qed.

Lemma category_delete_success
    (s : Categories.State) (c : Category)
    (refetch : Outcome CategoriesData) :
  Categories.categoryToDelete s = Some c →
  let r := Categories.confirmDelete s (Resolved ()) refetch in
  Categories.showDeleteModal (fst r) = false
  ∧ snd r = [DeleteCategory (cat_id c); GetCategories]
  ∧ Categories.categories (fst r) =
      Categories.categories (fst (Categories.fetchCategories s refetch)).
Proof.
  intros Hc. unfold Categories.confirmDelete. rewrite Hc.
  destruct refetch as [[l|l| |]|err]; repeat split.
Qed.

Lemma category_delete_failure
    (s : Categories.State) (c : Category) (err : AxiosError)
    (refetch : Outcome CategoriesData) :
  Categories.categoryToDelete s = Some c →
  let r := Categories.confirmDelete s (Rejected err) refetch in
  Categories.showDeleteModal (fst r) = false
  ∧ Categories.error (fst r) =
      Js.or_else (response_message err) "Failed to delete category"
  ∧ snd r = [DeleteCategory (cat_id c)]
  ∧ Categories.categories (fst r) = Categories.categories s.
Proof.
  intros Hc. unfold Categories.confirmDelete. rewrite Hc. repeat split.
Qed.

Lemma image_delete_success
    (s : ImageListing.State) (img : Image)
    (refetch : ImageListing.ListOutcome) :
  ImageListing.imageToDelete s = Some img →
  let r := ImageListing.confirmDelete s (Resolved ()) refetch in
  ImageListing.showDeleteModal (fst r) = false
  ∧ snd r = [DeleteImage (img_id img); ImageListing.images_request s]
  ∧ ImageListing.images (fst r) =
      ImageListing.images (fst (ImageListing.fetchImages s refetch)).
Proof.
  intros Hi. unfold ImageListing.confirmDelete. rewrite Hi.
  pose proof (images_fetch_collection
                (ImageListing.setDeletingId (Some (img_id img)) s) s
                refetch eq_refl) as Hcol.
  destruct (ImageListing.fetchImages
              (ImageListing.setDeletingId (Some (img_id img)) s) refetch)
    as [s2 reqs] eqn:E.
  assert (Hreqs : reqs = [ImageListing.images_request s])
    by (apply (f_equal snd) in E; simpl in E; by rewrite <- E).
  simpl in *. subst reqs. repeat split. exact Hcol.
Qed.

Lemma image_delete_failure
    (s : ImageListing.State) (img : Image) (err : AxiosError)
    (refetch : ImageListing.ListOutcome) :
  ImageListing.imageToDelete s = Some img →
  let r := ImageListing.confirmDelete s (Rejected err) refetch in
  ImageListing.showDeleteModal (fst r) = false
  ∧ ImageListing.error (fst r) =
      Js.or_else (response_message err) "Failed to delete image"
  ∧ snd r = [DeleteImage (img_id img)]
  ∧ ImageListing.images (fst r) = ImageListing.images s.
Proof.
  intros Hi. unfold ImageListing.confirmDelete. rewrite Hi. repeat split.
Qed.

(** C7, as amended: for a category create or update, a category
    delete and an image delete, success closes the modal or dialog and
    is followed by a full refetch of the list, the collection being
    what that refetch yields and never a local patch; a failed create
    or update shows the server's message (or a fixed fallback) in the
    modal, which stays as it was, and sends no refetch; a failed
    delete, of a category or of an image, puts the message (or the
    fallback) in the page-level error and closes the confirmation
    dialog, also without refetch. *)
Theorem mutation_flows
    (cs ds : Categories.State) (ls : ImageListing.State)
    (request : Request) (c : Category) (img : Image) (err : AxiosError)
    (cats : Outcome CategoriesData) (imgs : ImageListing.ListOutcome) :
  Js.trim (Categories.categoryName cs) ≠ [] →
  Categories.save_request cs = Some request →
  Categories.categoryToDelete ds = Some c →
  ImageListing.imageToDelete ls = Some img →
  (let r := Categories.handleSave cs (Resolved ()) cats in
   Categories.showModal (fst r) = false
   ∧ snd r = [request; GetCategories]
   ∧ Categories.categories (fst r) =
       Categories.categories (fst (Categories.fetchCategories cs cats)))
  ∧ (let r := Categories.confirmDelete ds (Resolved ()) cats in
     Categories.showDeleteModal (fst r) = false
     ∧ snd r = [DeleteCategory (cat_id c); GetCategories]
     ∧ Categories.categories (fst r) =
         Categories.categories (fst (Categories.fetchCategories ds cats)))
  ∧ (let r := ImageListing.confirmDelete ls (Resolved ()) imgs in
     ImageListing.showDeleteModal (fst r) = false
     ∧ snd r = [DeleteImage (img_id img); ImageListing.images_request ls]
     ∧ ImageListing.images (fst r) =
         ImageListing.images (fst (ImageListing.fetchImages ls imgs)))
  ∧ (let r := Categories.handleSave cs (Rejected err) cats in
     Categories.showModal (fst r) = Categories.showModal cs
     ∧ Categories.modalError (fst r) =
         Js.or_else (response_message err) "Failed to save category"
     ∧ Categories.categoryName (fst r) = Categories.categoryName cs
     ∧ snd r = [request]
     ∧ Categories.categories (fst r) = Categories.categories cs)
  ∧ (let r := Categories.confirmDelete ds (Rejected err) cats in
     Categories.showDeleteModal (fst r) = false
     ∧ Categories.error (fst r) =
         Js.or_else (response_message err) "Failed to delete category"
     ∧ snd r = [DeleteCategory (cat_id c)]
     ∧ Categories.categories (fst r) = Categories.categories ds)
  ∧ (let r := ImageListing.confirmDelete ls (Rejected err) imgs in
     ImageListing.showDeleteModal (fst r) = false
     ∧ ImageListing.error (fst r) =
         Js.or_else (response_message err) "Failed to delete image"
     ∧ snd r = [DeleteImage (img_id img)]
     ∧ ImageListing.images (fst r) = ImageListing.images ls).
Proof.
  intros Hname Hreq Hc Hi.
  split; [by apply handleSave_success|].
  split; [by apply category_delete_success|].
  split; [by apply image_delete_success|].
  split; [by apply handleSave_failure|].
  split; [by apply category_delete_failure|].
  by apply image_delete_failure.
Qed.

Lemma mutation_flows_witness :
  let cats := Resolved (Envelope [Scenario.nature]) in
  let imgs := Scenario.list_ok ["2"] (Some (Scenario.page_info 1 1 1)) in
  snd (Categories.handleSave Scenario.name_typed (Resolved ()) cats) =
    [PostCategory (cat_name Scenario.nature); GetCategories]
  ∧ Categories.showModal
      (fst (Categories.handleSave Scenario.name_typed
              (Rejected Scenario.server_error) cats)) = true
  ∧ Categories.modalError
      (fst (Categories.handleSave Scenario.name_typed
              (Rejected Scenario.server_error) cats)) = "Category is in use"
  ∧ snd (ImageListing.confirmDelete Scenario.image_dialog_open
           (Resolved ()) imgs) =
      [DeleteImage "1"; GetImages 1 10 None].
Proof.
  intros cats imgs.
  assert (H1 : Js.trim (Categories.categoryName Scenario.name_typed) ≠ [])
    by (vm_compute; discriminate).
  assert (H2 : Categories.save_request Scenario.name_typed =
               Some (PostCategory (cat_name Scenario.nature)))
    by (vm_compute; reflexivity).
  assert (H3 : Categories.categoryToDelete Scenario.delete_dialog_open =
               Some Scenario.nature) by reflexivity.
  assert (H4 : ImageListing.imageToDelete Scenario.image_dialog_open =
               Some (Scenario.sample_image "1")) by reflexivity.
  destruct (mutation_flows Scenario.name_typed Scenario.delete_dialog_open
              Scenario.image_dialog_open _ _ _ Scenario.server_error
              cats imgs H1 H2 H3 H4)
    as ((_ & Hsave & _) & _ & (_ & Hdel & _) & (Hopen & Hmsg & _) & _).
  split; [exact Hsave|]. split; [|split].
  - rewrite Hopen. reflexivity.
  - rewrite Hmsg. reflexivity.
  - rewrite Hdel. vm_compute. reflexivity.
Defined.

(** C7 fails on the code for the delete flows: when the delete request
    is refused, the confirmation dialog, open before, is closed, for a
    category as for an image. *)
Lemma delete_failure_closes_dialog :
  let cats := Resolved (Envelope [Scenario.nature]) in
  let imgs := Scenario.list_ok ["2"] (Some (Scenario.page_info 1 1 1)) in
  (Categories.showDeleteModal Scenario.delete_dialog_open = true
   ∧ Categories.showDeleteModal
       (fst (Categories.confirmDelete Scenario.delete_dialog_open
               (Rejected Scenario.server_error) cats)) = false)
  ∧ (ImageListing.showDeleteModal Scenario.image_dialog_open = true
     ∧ ImageListing.showDeleteModal
         (fst (ImageListing.confirmDelete Scenario.image_dialog_open
                 (Rejected Scenario.server_error) imgs)) = false).
Proof. repeat split. Qed.

End MutationFlows.

(** ** Consumers of the category list *)

Section CategoryListShapes.
Import Http Model.

(** C8 on the code: the category page and the listing page decode an
    enveloped list and a bare array to the same collection; the upload
    page reads [res.data.data] only, which yields the list for the
    envelope and [undefined] for the bare array. *)
Theorem upload_page_misses_bare_array
    (l : list Category) (cs : Categories.State)
    (ls : ImageListing.State) (us : ImageUpload.State) :
  (Categories.categories
     (fst (Categories.fetchCategories cs (Resolved (Envelope l)))) = l
   ∧ Categories.categories
       (fst (Categories.fetchCategories cs (Resolved (BareArray l)))) = l)
  ∧ (ImageListing.categories
       (fst (ImageListing.fetchCategories ls (Resolved (Envelope l)))) = l
     ∧ ImageListing.categories
         (fst (ImageListing.fetchCategories ls (Resolved (BareArray l))))
       = l)
  ∧ (ImageUpload.categories
       (fst (ImageUpload.fetchCategories us (Resolved (Envelope l))))
     = Some l
     ∧ ImageUpload.categories
         (fst (ImageUpload.fetchCategories us (Resolved (BareArray l))))
       = None
     ∧ ImageUpload.category_options
         (fst (ImageUpload.fetchCategories us (Resolved (BareArray l))))
       = None).
Proof. repeat split. Qed.

End CategoryListShapes.

(** ** The page bar of the listing *)

Section PageBar.
Import Http Model ImageListing.

Lemma elem_of_pages_from_to (a b n : Z) :
  n ∈ pages_from_to a b ↔ a ≤ n ≤ b.
Proof. unfold pages_from_to. rewrite elem_of_seqZ. lia. Qed.

Lemma seqZ_increasing (m n : Z) : StronglySorted Z.lt (seqZ m n).
Proof.
  remember (Z.to_nat n) as k eqn:Hk. revert m n Hk.
  induction k as [|k IH]; intros m n Hk.
  - rewrite seqZ_nil by lia. constructor.
  - rewrite seqZ_cons by lia. constructor.
    + apply IH. lia.
    + apply Forall_seqZ. intros x Hx. lia.
Qed.

Lemma page_numbers_fmap (l : list Z) : page_numbers (PageNum <$> l) = l.
Proof.
  induction l as [|x l IH]; [reflexivity|].
  change (page_numbers (PageNum <$> x :: l))
    with (x :: page_numbers (PageNum <$> l)).
  by rewrite IH.
Qed.

Lemma elem_of_page_numbers (items : list PageItem) (n : Z) :
  PageNum n ∈ items ↔ n ∈ page_numbers items.
Proof.
  unfold page_numbers. rewrite list_elem_of_omap. split.
  - intros H. exists (PageNum n). by split.
  - intros ([m|] & Hin & Hm); [|discriminate].
    injection Hm as ->. exact Hin.
Qed.

(** The numbers of the bar, with the fillers left out. *)
Lemma page_numbers_bar (s : State) (p : Pagination.t) :
  pagination s = Some p →
  page_numbers (getPageNumbers s) =
  if Pagination.totalPages p <=? 7
  then pages_from_to 1 (Pagination.totalPages p)
  else 1 :: pages_from_to
              (Z.max 2 (Pagination.currentPage p - 1))
              (Z.min (Pagination.totalPages p - 1)
                     (Pagination.currentPage p + 1))
         ++ [Pagination.totalPages p].
Proof.
  intros Hp. unfold getPageNumbers. rewrite Hp.
  destruct (Pagination.totalPages p <=? 7); [apply page_numbers_fmap|].
  cbv zeta. unfold page_numbers. rewrite !omap_app.
  fold (page_numbers
          (PageNum <$> pages_from_to
                         (Z.max 2 (Pagination.currentPage p - 1))
                         (Z.min (Pagination.totalPages p - 1)
                                (Pagination.currentPage p + 1)))).
  rewrite page_numbers_fmap.
  destruct (3 <? Pagination.currentPage p),
    (Pagination.currentPage p <? Pagination.totalPages p - 2); reflexivity.
Qed.

Lemma ellipsis_not_number (l : list Z) : Ellipsis ∉ PageNum <$> l.
Proof. intros (x & Hx & _)%list_elem_of_fmap. discriminate. Qed.

Lemma ellipsis_in_bar (s : State) (p : Pagination.t) :
  pagination s = Some p →
  Ellipsis ∈ getPageNumbers s ↔
  7 < Pagination.totalPages p
  ∧ (3 < Pagination.currentPage p
     ∨ Pagination.currentPage p < Pagination.totalPages p - 2).
Proof.
  intros Hp. unfold getPageNumbers. rewrite Hp.
  destruct (Pagination.totalPages p <=? 7) eqn:Et.
  - apply Z.leb_le in Et. split; [|lia].
    intros H. by apply ellipsis_not_number in H.
  - apply Z.leb_gt in Et. cbv zeta.
    pose proof (ellipsis_not_number
                  (pages_from_to
                     (Z.max 2 (Pagination.currentPage p - 1))
                     (Z.min (Pagination.totalPages p - 1)
                            (Pagination.currentPage p + 1)))) as Hmid.
    destruct (3 <? Pagination.currentPage p) eqn:E1;
      [apply Z.ltb_lt in E1 | apply Z.ltb_ge in E1].
    { rewrite !elem_of_app, !list_elem_of_singleton.
      split; intros _; [lia|]. right; left. reflexivity. }
    destruct (Pagination.currentPage p <? Pagination.totalPages p - 2)
      eqn:E2; [apply Z.ltb_lt in E2 | apply Z.ltb_ge in E2].
    { rewrite !elem_of_app, !list_elem_of_singleton.
      split; intros _; [lia|]. right; right; right; left. reflexivity. }
    rewrite !elem_of_app, !list_elem_of_singleton, !elem_of_nil.
    split; [|lia].
    intros [H|[H|[H|[H|H]]]]; try discriminate; try contradiction.
Qed.

Lemma bar_page_exists (s : State) (p : Pagination.t) (n : Z) :
  pagination s = Some p →
  PageNum n ∈ getPageNumbers s →
  1 ≤ n ≤ Pagination.totalPages p.
Proof.
  intros Hp Hin. apply elem_of_page_numbers in Hin.
  rewrite (page_numbers_bar s p Hp) in Hin.
  destruct (Pagination.totalPages p <=? 7) eqn:Et.
  - by apply elem_of_pages_from_to in Hin.
  - apply Z.leb_gt in Et.
    rewrite elem_of_cons, elem_of_app, elem_of_pages_from_to,
      list_elem_of_singleton in Hin. lia.
Qed.

Lemma page_in_bar (s : State) (p : Pagination.t) (n : Z) :
  pagination s = Some p →
  1 ≤ n ≤ Pagination.totalPages p →
  n = 1 ∨ n = Pagination.totalPages p
  ∨ Pagination.currentPage p - 1 ≤ n ≤ Pagination.currentPage p + 1
  ∨ Pagination.totalPages p ≤ 7 →
  PageNum n ∈ getPageNumbers s.
Proof.
  intros Hp Hn Hcase. apply elem_of_page_numbers.
  rewrite (page_numbers_bar s p Hp).
  destruct (Pagination.totalPages p <=? 7) eqn:Et.
  - by apply elem_of_pages_from_to.
  - apply Z.leb_gt in Et.
    rewrite elem_of_cons, elem_of_app, elem_of_pages_from_to,
      list_elem_of_singleton. lia.
Qed.

(** X1: every page number shown in the page bar is a page that exists:
    it lies in [1, totalPages], whatever [currentPage] the server
    reported. *)
Theorem page_bar_within_bounds (s : State) (p : Pagination.t) (n : Z) :
  pagination s = Some p →
  PageNum n ∈ getPageNumbers s →
  1 ≤ n ≤ Pagination.totalPages p.
Proof. apply bar_page_exists. Qed.

(** X2: the page bar always offers the first page, the last page, the
    reported current page and its two neighbours, as far as they exist;
    with at most seven pages it offers every page. *)
Theorem page_bar_offers_neighbours (s : State) (p : Pagination.t) (n : Z) :
  pagination s = Some p →
  1 ≤ n ≤ Pagination.totalPages p →
  n = 1 ∨ n = Pagination.totalPages p
  ∨ Pagination.currentPage p - 1 ≤ n ≤ Pagination.currentPage p + 1
  ∨ Pagination.totalPages p ≤ 7 →
  PageNum n ∈ getPageNumbers s.
Proof. apply page_in_bar. Qed.

(** X3: the page numbers of the bar are strictly increasing, so no page
    is offered twice. *)
Theorem page_bar_increasing (s : State) :
  StronglySorted Z.lt (page_numbers (getPageNumbers s)).
Proof.
  destruct (pagination s) as [p|] eqn:Hp.
  - rewrite (page_numbers_bar s p Hp).
    destruct (Pagination.totalPages p <=? 7) eqn:Et;
      [apply seqZ_increasing|].
    apply Z.leb_gt in Et. constructor.
    + apply StronglySorted_app. split; [|split].
      * intros x y Hx Hy. apply elem_of_pages_from_to in Hx.
        apply list_elem_of_singleton in Hy. lia.
      * apply seqZ_increasing.
      * repeat constructor.
    + apply Forall_app. split.
      * apply Forall_forall. intros x Hx.
        apply elem_of_pages_from_to in Hx. lia.
      * repeat constructor. lia.
  - unfold getPageNumbers. rewrite Hp. constructor.
Qed.

(** X4: the page bar never has more than seven entries, fillers
    included. *)
Theorem page_bar_at_most_seven (s : State) :
  (length (getPageNumbers s) ≤ 7)%nat.
Proof.
  unfold getPageNumbers. destruct (pagination s) as [p|]; [|simpl; lia].
  destruct (Pagination.totalPages p <=? 7) eqn:Et.
  - apply Z.leb_le in Et. unfold pages_from_to.
    rewrite length_fmap, length_seqZ. lia.
  - cbv zeta. unfold pages_from_to.
    rewrite !length_app, length_fmap, length_seqZ.
    destruct (3 <? Pagination.currentPage p),
      (Pagination.currentPage p <? Pagination.totalPages p - 2);
      simpl; lia.
Qed.

(** X5: the bar shows an ellipsis exactly when it leaves out some
    existing page. *)
Theorem page_bar_ellipsis_iff_gap (s : State) (p : Pagination.t) :
  pagination s = Some p →
  Ellipsis ∈ getPageNumbers s ↔
  ∃ n, 1 ≤ n ≤ Pagination.totalPages p ∧ PageNum n ∉ getPageNumbers s.
Proof.
  intros Hp. rewrite (ellipsis_in_bar s p Hp). split.
  - intros [Ht Hc].
    assert (Hbar := page_numbers_bar s p Hp).
    replace (Pagination.totalPages p <=? 7) with false in Hbar
      by (symmetry; apply Z.leb_gt; lia).
    destruct (decide (3 < Pagination.currentPage p)) as [H3|H3].
    + exists 2. split; [lia|]. rewrite elem_of_page_numbers, Hbar.
      rewrite elem_of_cons, elem_of_app, elem_of_pages_from_to,
        list_elem_of_singleton. lia.
    + exists (Pagination.totalPages p - 1). split; [lia|].
      rewrite elem_of_page_numbers, Hbar.
      rewrite elem_of_cons, elem_of_app, elem_of_pages_from_to,
        list_elem_of_singleton. lia.
  - intros (n & Hn & Hout).
    destruct (decide (Pagination.totalPages p ≤ 7)) as [Ht|Ht].
    + exfalso. apply Hout.
      apply (page_in_bar s p n Hp Hn). lia.
    + split; [lia|].
      destruct (decide (3 < Pagination.currentPage p)) as [H3|H3];
        [by left|].
      destruct (decide (Pagination.currentPage p
                        < Pagination.totalPages p - 2)) as [H4|H4];
        [by right|]. lia.
Qed.

Lemma page_bar_within_bounds_witness :
  1 ≤ 6 ≤ Pagination.totalPages (Scenario.page_info 5 12 115).
Proof.
  apply (page_bar_within_bounds (Scenario.gallery_at 5 12 115)
           (Scenario.page_info 5 12 115) 6).
  - reflexivity.
  - vm_compute. do 4 right. left.
Defined.

Lemma page_bar_offers_neighbours_witness :
  getPageNumbers (Scenario.gallery_at 5 12 115) =
    [PageNum 1; Ellipsis; PageNum 4; PageNum 5; PageNum 6; Ellipsis;
     PageNum 12]
  ∧ PageNum 6 ∈ getPageNumbers (Scenario.gallery_at 5 12 115).
Proof.
  split; [vm_compute; reflexivity|].
  apply (page_bar_offers_neighbours (Scenario.gallery_at 5 12 115)
           (Scenario.page_info 5 12 115) 6).
  - reflexivity.
  - simpl. lia.
  - right; right; left. simpl. lia.
Defined.

Lemma page_bar_ellipsis_iff_gap_witness :
  Ellipsis ∈ getPageNumbers (Scenario.gallery_at 5 12 115) ↔
  ∃ n, 1 ≤ n ≤ 12 ∧ PageNum n ∉ getPageNumbers (Scenario.gallery_at 5 12 115).
Proof.
  apply (page_bar_ellipsis_iff_gap (Scenario.gallery_at 5 12 115)
           (Scenario.page_info 5 12 115)).
  reflexivity.
Defined.

Lemma fetchImages_is_list_request (s : State) (res : ListOutcome) (id : string) :
  DeleteImage id ∉ snd (fetchImages s res).
Proof.
  rewrite fetchImages_requests. intros H.
  apply list_elem_of_singleton in H. discriminate.
Qed.

Lemma after_render_no_delete
    (prev next : State) (res : ListOutcome) (id : string) :
  DeleteImage id ∉ snd (after_render prev next res).
Proof.
  unfold after_render. destruct (deps_changed prev next).
  - apply fetchImages_is_list_request.
  - simpl. apply not_elem_of_nil.
Qed.

(** X6: clicking any enabled button of the page bar is accepted by the
    range guard: the controller moves to that page and exactly one list
    request goes out, for that page and the current filter. *)
Theorem page_button_moves
    (s : State) (p : Pagination.t) (item : PageItem) (res : ListOutcome) :
  pagination s = Some p →
  item ∈ getPageNumbers s →
  page_button_disabled s item = false →
  ∃ n, item = PageNum n
       ∧ currentPage (fst (page_button_click s item res)) = n
       ∧ snd (page_button_click s item res) =
           [GetImages n limit
              (if bool_decide (selectedCategory s ≠ "All")
               then Some (selectedCategory s) else None)].
Proof.
  intros Hp Hin Hen. destruct item as [n|]; [|discriminate].
  exists n. split; [reflexivity|].
  apply bool_decide_eq_false_1 in Hen.
  pose proof (bar_page_exists s p n Hp Hin) as Hn.
  unfold page_button_click.
  rewrite (handlePageChange_accepted n s p Hp Hn).
  unfold after_render, deps_changed.
  rewrite bool_decide_eq_true_2.
  - split; [|reflexivity].
    by destruct (fetchImages_deps (setCurrentPage n s) res) as [-> _].
  - unfold deps; simpl. intros E. apply Hen. congruence.
Qed.

Lemma page_button_moves_witness :
  snd (page_button_click (Scenario.gallery_at 5 12 115) (PageNum 6)
         (Scenario.list_ok ["51"] (Some (Scenario.page_info 6 12 115)))) =
    [GetImages 6 10 None].
Proof.
  destruct (page_button_moves (Scenario.gallery_at 5 12 115)
              (Scenario.page_info 5 12 115) (PageNum 6)
              (Scenario.list_ok ["51"] (Some (Scenario.page_info 6 12 115)))
              eq_refl)
    as (n & Hn & _ & Hreq).
  - vm_compute. do 4 right. left.
  - vm_compute. reflexivity.
  - injection Hn as <-. exact Hreq.
Defined.

Lemma goToPage_moves
    (target : Pagination.t → option Z) (s : State) (res : ListOutcome)
    (p : Pagination.t) (n : Z) :
  pagination s = Some p → target p = Some n →
  1 ≤ n ≤ Pagination.totalPages p → n ≠ currentPage s →
  goToPage target s = setCurrentPage n s
  ∧ currentPage (fst (after_render s (goToPage target s) res)) = n
  ∧ snd (after_render s (goToPage target s) res) =
      [GetImages n limit
         (if bool_decide (selectedCategory s ≠ "All")
          then Some (selectedCategory s) else None)].
Proof.
  intros Hp Ht Hn Hne.
  assert (Hgo : goToPage target s = setCurrentPage n s).
  { unfold goToPage. rewrite Hp, Ht.
    replace (n =? 0) with false by (symmetry; apply Z.eqb_neq; lia).
    by apply (handlePageChange_accepted n s p). }
  split; [exact Hgo|]. rewrite Hgo.
  unfold after_render, deps_changed. rewrite bool_decide_eq_true_2.
  - split; [|reflexivity].
    by destruct (fetchImages_deps (setCurrentPage n s) res) as [-> _].
  - unfold deps; simpl. intros E. apply Hne. congruence.
Qed.

Lemma goToPage_stays
    (target : Pagination.t → option Z) (s : State) (res : ListOutcome) :
  pagination s = None
  ∨ (∃ p, pagination s = Some p
          ∧ (target p = None
             ∨ ∃ n, target p = Some n
                    ∧ (n < 1 ∨ Pagination.totalPages p < n
                       ∨ n = currentPage s))) →
  after_render s (goToPage target s) res = (s, []).
Proof.
  unfold goToPage.
  intros [Hnone|(p & Hp & [Ht|(n & Ht & Hn)])].
  - rewrite Hnone. apply after_render_same.
  - rewrite Hp, Ht. apply after_render_same.
  - rewrite Hp, Ht. destruct (n =? 0); [apply after_render_same|].
    destruct (decide (1 ≤ n ≤ Pagination.totalPages p)) as [Hin|Hout].
    + rewrite (handlePageChange_accepted n s p Hp Hin).
      assert (n = currentPage s) as -> by lia.
      rewrite setCurrentPage_same. apply after_render_same.
    + rewrite handlePageChange_rejected; [apply after_render_same|].
      destruct (decide (n < 1)); [by left|].
      right; right. exists p. split; [exact Hp | lia].
Qed.

(** X7: the next arrow moves the controller to the [nextPage] of the
    pagination held and sends exactly one list request for it, whenever
    that page lies in [1, totalPages] and is not the page the controller
    is on; in every other case (no pagination, a null [nextPage], a
    page below 1, zero included, or above [totalPages], or the current
    page) it changes nothing and sends nothing.  The previous arrow
    does the same with [prevPage]. *)
Theorem arrows_follow_pagination (s : State) (res : ListOutcome) :
  (∀ p n, pagination s = Some p → Pagination.nextPage p = Some n →
          1 ≤ n ≤ Pagination.totalPages p → n ≠ currentPage s →
          goToNextPage s = setCurrentPage n s
          ∧ currentPage (fst (after_render s (goToNextPage s) res)) = n
          ∧ snd (after_render s (goToNextPage s) res) =
              [GetImages n limit
                 (if bool_decide (selectedCategory s ≠ "All")
                  then Some (selectedCategory s) else None)])
  ∧ (pagination s = None
     ∨ (∃ p, pagination s = Some p
             ∧ (Pagination.nextPage p = None
                ∨ ∃ n, Pagination.nextPage p = Some n
                       ∧ (n < 1 ∨ Pagination.totalPages p < n
                          ∨ n = currentPage s))) →
     after_render s (goToNextPage s) res = (s, []))
  ∧ (∀ p n, pagination s = Some p → Pagination.prevPage p = Some n →
            1 ≤ n ≤ Pagination.totalPages p → n ≠ currentPage s →
            goToPrevPage s = setCurrentPage n s
            ∧ currentPage (fst (after_render s (goToPrevPage s) res)) = n
            ∧ snd (after_render s (goToPrevPage s) res) =
                [GetImages n limit
                   (if bool_decide (selectedCategory s ≠ "All")
                    then Some (selectedCategory s) else None)])
  ∧ (pagination s = None
     ∨ (∃ p, pagination s = Some p
             ∧ (Pagination.prevPage p = None
                ∨ ∃ n, Pagination.prevPage p = Some n
                       ∧ (n < 1 ∨ Pagination.totalPages p < n
                          ∨ n = currentPage s))) →
     after_render s (goToPrevPage s) res = (s, [])).
Proof.
  split; [intros p n; apply goToPage_moves|].
  split; [apply goToPage_stays|].
  split; [intros p n; apply goToPage_moves | apply goToPage_stays].
Qed.

Lemma arrows_follow_pagination_witness :
  let s := Scenario.on_second_page in
  let res := Scenario.list_ok ["21"] (Some (Scenario.page_info 3 3 21)) in
  snd (after_render s (goToNextPage s) res) = [GetImages 3 10 None]
  ∧ currentPage (fst (after_render s (goToNextPage s) res)) = 3
  ∧ after_render Scenario.mounted (goToPrevPage Scenario.mounted) res
    = (Scenario.mounted, []).
Proof.
  intros s res.
  destruct (arrows_follow_pagination s res) as (Hnext & _).
  destruct (arrows_follow_pagination Scenario.mounted res)
    as (_ & _ & _ & Hprev).
  assert (Hp : pagination s = Some (Scenario.page_info 2 3 21))
    by reflexivity.
  assert (Hn : Pagination.nextPage (Scenario.page_info 2 3 21) = Some 3)
    by reflexivity.
  assert (Hin : 1 ≤ 3 ≤ Pagination.totalPages (Scenario.page_info 2 3 21))
    by (simpl; lia).
  assert (Hne : 3 ≠ currentPage s) by (simpl; lia).
  destruct (Hnext _ _ Hp Hn Hin Hne) as (_ & Hcur & Hreq).
  split; [rewrite Hreq; reflexivity|]. split; [exact Hcur|].
  apply Hprev. right. exists (Scenario.page_info 1 3 21).
  split; [reflexivity|]. left. reflexivity.
Defined.

(** X8: on a page at or above 1 that the backend still has records for,
    with [currentPage * limit] and [totalRecords] within the safe
    integers (where the page's double arithmetic is exact), the line
    "Showing a to b of n" names a non-empty range of at most [limit]
    records that ends within the records. *)
Theorem showing_range_sound (s : State) (p : Pagination.t) :
  1 ≤ currentPage s →
  currentPage s * limit ≤ max_safe_integer →
  Pagination.totalRecords p ≤ max_safe_integer →
  (currentPage s - 1) * limit < Pagination.totalRecords p →
  ∃ a b,
    showing_from s = Some a ∧ showing_to s p = Some b
    ∧ a = (currentPage s - 1) * limit + 1
    ∧ 1 ≤ a ≤ b
    ∧ b ≤ Pagination.totalRecords p
    ∧ b - a + 1 ≤ limit.
Proof.
  unfold max_safe_integer, limit. intros H1 H2 H3 H4.
  assert (Hex : ∀ z, - (2 ^ 53 - 1) ≤ z ≤ 2 ^ 53 - 1 → exact z = Some z).
  { intros z Hz. unfold exact, max_safe_integer.
    replace (- (2 ^ 53 - 1) <=? z) with true
      by (symmetry; apply Z.leb_le; lia).
    replace (z <=? 2 ^ 53 - 1) with true
      by (symmetry; apply Z.leb_le; lia).
    reflexivity. }
  exists ((currentPage s - 1) * 10 + 1),
    (Z.min (currentPage s * 10) (Pagination.totalRecords p)).
  unfold showing_from, showing_to, limit.
  rewrite (Hex (currentPage s)) by lia. cbn [mbind option_bind].
  rewrite (Hex (currentPage s - 1)) by lia. cbn [mbind option_bind].
  rewrite (Hex ((currentPage s - 1) * 10)) by lia. cbn [mbind option_bind].
  rewrite (Hex ((currentPage s - 1) * 10 + 1)) by lia.
  rewrite (Hex (Pagination.totalRecords p)) by lia. cbn [mbind option_bind].
  rewrite (Hex (currentPage s * 10)) by lia. cbn [mbind option_bind].
  repeat split; lia.
Qed.

Lemma showing_range_sound_witness :
  showing_from (Scenario.gallery_at 12 12 115) = Some 111
  ∧ showing_to (Scenario.gallery_at 12 12 115)
      (Scenario.page_info 12 12 115) = Some 115.
Proof.
  destruct (showing_range_sound (Scenario.gallery_at 12 12 115)
              (Scenario.page_info 12 12 115))
    as (a & b & Ha & Hb & _).
  - simpl. lia.
  - vm_compute. discriminate.
  - vm_compute. discriminate.
  - vm_compute. reflexivity.
  - split; reflexivity.
Defined.

(** X9: a list response that resolved but has no body or no [success]
    flag is reported as 'Unexpected response from server' on the error
    panel; the images and the pagination held are not touched. *)
Theorem unexpected_response_is_error (s : State) (res : ListOutcome) :
  res = Resolved None
  ∨ (∃ body, res = Resolved (Some body) ∧ success body = false) →
  let s' := fst (fetchImages s res) in
  error s' = "Unexpected response from server"
  ∧ render s' = ErrorPanel "Unexpected response from server"
  ∧ images s' = images s
  ∧ pagination s' = pagination s.
Proof.
  intros [->|(body & -> & Hs)]; simpl; [|rewrite Hs]; repeat split.
Qed.

Lemma unexpected_response_is_error_witness :
  let body := {| success := false; data := Some [];
                 body_pagination := Some (Scenario.page_info 1 0 0) |} in
  images (fst (fetchImages Scenario.on_second_page (Resolved (Some body))))
  = images Scenario.on_second_page.
Proof.
  intros body.
  destruct (unexpected_response_is_error Scenario.on_second_page
              (Resolved (Some body))) as (_ & _ & H & _).
  - right. exists body. split; reflexivity.
  - exact H.
Defined.

Lemma confirmDelete_log
    (s : State) (del : Outcome unit) (refetch : ListOutcome) (id : string) :
  DeleteImage id ∈ snd (confirmDelete s del refetch) →
  ∃ img, imageToDelete s = Some img ∧ img_id img = id.
Proof.
  unfold confirmDelete. destruct (imageToDelete s) as [img|];
    [|intros H; by apply not_elem_of_nil in H].
  intros H. exists img. split; [reflexivity|].
  destruct del as [u|err].
  - pose proof (fetchImages_is_list_request
                  (setDeletingId (Some (img_id img)) s) refetch id) as Hno.
    destruct (fetchImages (setDeletingId (Some (img_id img)) s) refetch)
      as [s2 reqs]. simpl in *.
    apply elem_of_cons in H as [H|H]; [congruence | contradiction].
  - simpl in H. apply list_elem_of_singleton in H. congruence.
Qed.

(** X10: a delete request is only ever sent by confirming the dialog,
    and it names the image the dialog was opened on. *)
Theorem delete_needs_confirmation (s : State) (ev : Event) (id : string) :
  DeleteImage id ∈ snd (step s ev) →
  ∃ del refetch img,
    ev = ConfirmDelete del refetch
    ∧ imageToDelete s = Some img ∧ img_id img = id.
Proof.
  destruct ev as [c res|n res|img| |del refetch|res]; simpl; intros H.
  - by apply after_render_no_delete in H.
  - by apply after_render_no_delete in H.
  - by apply not_elem_of_nil in H.
  - by apply not_elem_of_nil in H.
  - apply confirmDelete_log in H as (img & Hi & Hid).
    exists del, refetch, img. auto.
  - unfold retry in H. by apply fetchImages_is_list_request in H.
Qed.

Lemma delete_needs_confirmation_witness :
  ∃ del refetch img,
    ConfirmDelete (Resolved ()) (Scenario.list_ok [] None)
      = ConfirmDelete del refetch
    ∧ imageToDelete Scenario.image_dialog_open = Some img
    ∧ img_id img = "1".
Proof.
  apply (delete_needs_confirmation Scenario.image_dialog_open
           (ConfirmDelete (Resolved ()) (Scenario.list_ok [] None)) "1").
  vm_compute. left.
Defined.

End PageBar.

(** ** Runs of the listing controller *)

Section ListingRuns.
Import Http Model ImageListing.

Lemma fetchImages_dialog (s : State) (res : ListOutcome) :
  imageToDelete (fst (fetchImages s res)) = imageToDelete s
  ∧ deletingId (fst (fetchImages s res)) = deletingId s.
Proof.
  destruct res as [[body|]|err]; simpl; auto.
  destruct (success body); simpl; auto.
  destruct (data body), (body_pagination body); auto.
Qed.

Lemma handlePageChange_dialog (n : Z) (s : State) :
  imageToDelete (handlePageChange n s) = imageToDelete s
  ∧ deletingId (handlePageChange n s) = deletingId s
  ∧ loading (handlePageChange n s) = loading s.
Proof.
  unfold handlePageChange. destruct (pagination s) as [p|]; [|auto].
  destruct ((1 <=? n) && (n <=? Pagination.totalPages p)); auto.
Qed.

Lemma delete_requests_fetch (s : State) (res : ListOutcome) :
  delete_requests (snd (fetchImages s res)) = [].
Proof. reflexivity. Qed.

Lemma delete_requests_after_render
    (prev next : State) (res : ListOutcome) :
  delete_requests (snd (after_render prev next res)) = []
  ∧ pending_delete (fst (after_render prev next res)) = pending_delete next.
Proof.
  unfold after_render, pending_delete.
  destruct (deps_changed prev next); [|auto].
  split; [reflexivity|].
  by destruct (fetchImages_dialog next res) as [-> _].
Qed.

(** One step spends at most what is pending, and only a delete click
    adds to it. *)
Lemma step_delete_budget (s : State) (ev : Event) :
  (length (delete_requests (snd (step s ev)))
   + pending_delete (fst (step s ev))
   ≤ pending_delete s + length (delete_clicks [ev]))%nat.
Proof.
  destruct ev as [c res|n res|img| |del refetch|res]; cbn [step].
  - destruct (delete_requests_after_render s (handleCategoryChange c s) res)
      as [-> ->]. unfold pending_delete; simpl. lia.
  - destruct (delete_requests_after_render s (handlePageChange n s) res)
      as [-> ->]. unfold pending_delete.
    destruct (handlePageChange_dialog n s) as [-> _]. simpl. lia.
  - unfold pending_delete; simpl. destruct (imageToDelete s); simpl; lia.
  - unfold pending_delete; simpl. lia.
  - unfold confirmDelete, pending_delete.
    destruct (imageToDelete s) as [img|] eqn:Hi;
      [|simpl; rewrite Hi; simpl; lia].
    destruct del as [u|err]; [|simpl; lia].
    destruct (fetchImages (setDeletingId (Some (img_id img)) s) refetch)
      as [s2 reqs] eqn:E.
    assert (Hr : reqs = [images_request s])
      by (apply (f_equal snd) in E; simpl in E; by rewrite <- E).
    subst reqs. simpl. lia.
  - unfold retry. rewrite delete_requests_fetch. unfold pending_delete.
    destruct (fetchImages_dialog (setError "" s) res) as [-> _]. simpl. lia.
Qed.

Lemma run_delete_budget (evs : list Event) (s : State) :
  (length (delete_requests (snd (run_log s evs)))
   ≤ pending_delete s + length (delete_clicks evs))%nat.
Proof.
  revert s. induction evs as [|ev evs IH]; intros s; [simpl; lia|].
  simpl. pose proof (step_delete_budget s ev) as Hstep.
  destruct (step s ev) as [s1 r1]. specialize (IH s1).
  destruct (run_log s1 evs) as [s2 r2]. simpl in *.
  unfold delete_requests in *. rewrite omap_app, length_app.
  unfold delete_clicks in *.
  destruct ev; simpl in *; lia.
Qed.

(** X11: along every run of the mounted listing, the controller sends
    at most one delete request per click on a delete button: confirming
    consumes the pending image, so a dialog cannot be confirmed twice. *)
Theorem deletes_bounded_by_clicks
    (cats : Outcome CategoriesData) (res : ListOutcome) (evs : list Event) :
  (length (delete_requests (snd (run_log (fst (mount cats res)) evs)))
   ≤ length (delete_clicks evs))%nat.
Proof.
  pose proof (run_delete_budget evs (fst (mount cats res))) as H.
  assert (Hp : pending_delete (fst (mount cats res)) = 0%nat).
  { unfold mount, pending_delete.
    destruct (fetchCategories initial cats) as [s1 r1] eqn:E1.
    assert (H1 : imageToDelete s1 = None).
    { unfold fetchCategories in E1. injection E1 as <- _.
      by destruct cats as [[l|l| |]|err]. }
    pose proof (fetchImages_dialog s1 res) as [Hd _].
    destruct (fetchImages s1 res) as [s2 r2]. simpl in *.
    by rewrite Hd, H1. }
  lia.
Qed.

Lemma step_idle (s : State) (ev : Event) : idle s → idle (fst (step s ev)).
Proof.
  intros [Hl Hd]. unfold idle.
  destruct ev as [c res|n res|img| |del refetch|res]; cbn [step fst].
  - unfold after_render.
    destruct (deps_changed s (handleCategoryChange c s)); [|by split].
    split; [reflexivity|].
    by destruct (fetchImages_dialog (handleCategoryChange c s) res)
      as [_ ->].
  - unfold after_render.
    destruct (handlePageChange_dialog n s) as (_ & Hd' & Hl').
    destruct (deps_changed s (handlePageChange n s)).
    + split; [reflexivity|].
      destruct (fetchImages_dialog (handlePageChange n s) res) as [_ ->].
      by rewrite Hd'.
    + cbn [fst]. by rewrite Hd', Hl'.
  - by split.
  - by split.
  - unfold confirmDelete. destruct (imageToDelete s) as [img|]; [|by split].
    destruct del as [u|err]; [|by split].
    destruct (fetchImages (setDeletingId (Some (img_id img)) s) refetch)
      as [s2 reqs] eqn:E.
    assert (Hl2 : loading s2 = false)
      by (apply (f_equal fst) in E; simpl in E; by rewrite <- E).
    by split.
  - unfold retry. split; [reflexivity|].
    by destruct (fetchImages_dialog (setError "" s) res) as [_ ->].
Qed.

(** X12: after mounting and after every completed operation of the
    listing the spinners are off: [loading] is false and no image is
    marked as being deleted, whatever the backend answered. *)
Theorem listing_settles
    (cats : Outcome CategoriesData) (res : ListOutcome) (evs : list Event) :
  loading (run (fst (mount cats res)) evs) = false
  ∧ deletingId (run (fst (mount cats res)) evs) = None.
Proof.
  assert (H0 : idle (fst (mount cats res))).
  { unfold mount.
    destruct (fetchCategories initial cats) as [s1 r1] eqn:E1.
    assert (H1 : deletingId s1 = None).
    { unfold fetchCategories in E1. injection E1 as <- _.
      by destruct cats as [[l|l| |]|err]. }
    pose proof (fetchImages_dialog s1 res) as [_ Hd].
    pose proof (fetchImages_loading s1 res) as Hl.
    destruct (fetchImages s1 res) as [s2 r2]. simpl in *.
    split; [exact Hl | by rewrite Hd]. }
  revert H0. generalize (fst (mount cats res)).
  induction evs as [|ev evs IH]; intros s Hs; [exact Hs|].
  simpl. apply IH. by apply step_idle.
Qed.

End ListingRuns.

(** ** Session actions *)

Section SessionActions.
Import AuthContext.

Lemma session_eq (s t : Session) :
  localStorage s = localStorage t → isAuthenticated s = isAuthenticated t →
  s = t.
Proof. destruct s, t; simpl. by intros -> ->. Qed.

(** X13: a page reload keeps the session: in every state reached by
    logins with non-empty tokens, logouts and reloads, mounting the
    provider again over the storage left behind gives back the very
    same state. *)
Theorem reload_preserves_session
    (ls : gmap string string) (acts : list Action) :
  storage_clean ls →
  Forall nonempty_login acts →
  step (run (mount ls) acts) Reload = run (mount ls) acts.
Proof.
  intros Hclean Hall.
  destruct (settled_run acts (mount ls) Hall (settled_mount ls Hclean))
    as [_ Hinv].
  apply session_eq; [reflexivity|]. simpl. symmetry. exact Hinv.
Qed.

Lemma reload_preserves_session_witness :
  step (run (mount ∅) [Login "abc"; Logout; Login "def"]) Reload
  = run (mount ∅) [Login "abc"; Logout; Login "def"].
Proof.
  apply reload_preserves_session.
  - unfold storage_clean. rewrite lookup_empty. discriminate.
  - repeat constructor; simpl; discriminate.
Defined.

(** X14: the session actions compose as overwrites: the last login
    decides the stored token, a logout after a login leaves the same
    state as the logout alone, a login after a logout the same as the
    login alone, and a second logout changes nothing. *)
Theorem session_actions_compose (t1 t2 : string) (s : Session) :
  login t2 (login t1 s) = login t2 s
  ∧ logout (login t1 s) = logout s
  ∧ login t1 (logout s) = login t1 s
  ∧ logout (logout s) = logout s.
Proof.
  repeat split; apply session_eq; try reflexivity;
    unfold login, logout, withStorage, setItem, removeItem; simpl.
  - apply insert_insert_eq.
  - apply delete_insert_eq.
  - apply insert_delete_eq.
  - apply delete_delete_eq.
Qed.

(** X15: the session store touches one storage key only: whatever the
    sequence of logins, logouts and reloads, every other key of
    [localStorage] keeps its entry. *)
Theorem session_touches_one_key
    (s : Session) (acts : list Action) (k : string) :
  k ≠ jwt_key →
  getItem k (localStorage (run s acts)) = getItem k (localStorage s).
Proof.
  intros Hk. revert s. induction acts as [|a acts IH]; intros s;
    [reflexivity|].
  simpl. rewrite IH. by apply step_frame.
Qed.

Lemma session_touches_one_key_witness :
  getItem "theme"
    (localStorage (run (mount {["theme" := "dark"]})
                     [Login "abc"; Reload; Logout]))
  = Some "dark".
Proof.
  rewrite (session_touches_one_key (mount {["theme" := "dark"]})
             [Login "abc"; Reload; Logout] "theme").
  - reflexivity.
  - discriminate.
Defined.

End SessionActions.

(** ** Category management *)

Section CategoryPage.
Import Http Model Categories.

Lemma trimStart_split (s : list N) :
  ∃ pre, s = pre ++ Js.trimStart s
         ∧ Forall (λ c, Js.is_white_space c = true) pre.
Proof.
  induction s as [|c s (pre & Hs & Hpre)]; [by exists []|].
  simpl. destruct (Js.is_white_space c) eqn:E.
  - exists (c :: pre). split; [simpl; congruence | by constructor].
  - by exists [].
Qed.

Lemma trimStart_head (s : list N) (c : N) (r : list N) :
  Js.trimStart s = c :: r → Js.is_white_space c = false.
Proof.
  induction s as [|d s IH]; simpl; [discriminate|].
  destruct (Js.is_white_space d) eqn:E; [exact IH|].
  intros [= <- _]. exact E.
Qed.

Lemma trimEnd_split (s : list N) :
  ∃ post, s = Js.trimEnd s ++ post
          ∧ Forall (λ c, Js.is_white_space c = true) post.
Proof.
  destruct (trimStart_split (rev s)) as (pre & Hs & Hpre).
  exists (rev pre). split; [|by apply Forall_rev].
  unfold Js.trimEnd. rewrite <- rev_app_distr, <- Hs.
  by rewrite rev_involutive.
Qed.

Lemma trimEnd_last (s init : list N) (c : N) :
  Js.trimEnd s = init ++ [c] → Js.is_white_space c = false.
Proof.
  unfold Js.trimEnd. intros H. apply (f_equal (@rev N)) in H.
  rewrite rev_involutive, rev_app_distr in H. simpl in H.
  by apply trimStart_head in H.
Qed.

(** [trim] removes white space at both ends and nothing else. *)
Lemma trim_shape (s : list N) :
  (∃ pre post,
     s = pre ++ Js.trim s ++ post
     ∧ Forall (λ c, Js.is_white_space c = true) pre
     ∧ Forall (λ c, Js.is_white_space c = true) post)
  ∧ (∀ c r, Js.trim s = c :: r → Js.is_white_space c = false)
  ∧ (∀ init c, Js.trim s = init ++ [c] → Js.is_white_space c = false).
Proof.
  destruct (trimStart_split s) as (pre & Hs & Hpre).
  destruct (trimEnd_split (Js.trimStart s)) as (post & Ht & Hpost).
  fold (Js.trim s) in Ht. split; [|split].
  - exists pre, post. split; [|by split]. by rewrite <- Ht.
  - intros c r Hc. rewrite Hc in Ht. simpl in Ht.
    by apply trimStart_head in Ht.
  - intros init c. apply trimEnd_last.
Qed.

Lemma handleSave_requests
    (s : State) (save : Outcome unit) (refetch : Outcome CategoriesData)
    (r : Request) (name : list N) :
  r ∈ snd (handleSave s save refetch) →
  request_name r = Some name →
  name = Js.trim (categoryName s) ∧ name ≠ [].
Proof.
  unfold handleSave.
  destruct (Js.trim (categoryName s)) as [|u w] eqn:E; simpl;
    [intros H; by apply not_elem_of_nil in H|].
  assert (Hsent : ∀ q, save_request s = Some q →
                       request_name q = Some (u :: w)).
  { unfold save_request. rewrite E. intros q.
    destruct (modalMode s); [by intros [= <-]|].
    destruct (editingCategory s); [by intros [= <-] | discriminate]. }
  destruct (save_request s) as [q|] eqn:Hq.
  - specialize (Hsent q eq_refl). destruct save as [v|err].
    + pose proof (categories_fetch_frame
                    (setModalError "" (setModalLoading true s)) refetch)
        as (_ & _ & _ & Hreqs).
      destruct (fetchCategories _ refetch) as [s2 reqs]. simpl in *.
      subst reqs. intros Hin Hname.
      apply elem_of_cons in Hin as [->|Hin].
      * rewrite Hsent in Hname. injection Hname as <-. by split.
      * apply list_elem_of_singleton in Hin. subst r. discriminate.
    + simpl. intros Hin Hname. apply list_elem_of_singleton in Hin.
      subst r. rewrite Hsent in Hname. injection Hname as <-. by split.
  - destruct save, refetch as [[l|l| |]|e]; simpl; intros Hin Hname;
      apply list_elem_of_singleton in Hin; subst r; discriminate.
Qed.

(** X16: every category name that [handleSave] puts in a create or
    update request is the typed text without the white space at its two
    ends: it is non-empty, neither starts nor ends with white space, and
    the typed text is that name between two runs of white space. *)
Theorem saved_name_is_trimmed
    (s : State) (save : Outcome unit) (refetch : Outcome CategoriesData)
    (r : Request) (name : list N) :
  r ∈ snd (handleSave s save refetch) →
  request_name r = Some name →
  name ≠ []
  ∧ (∃ pre post,
       categoryName s = pre ++ name ++ post
       ∧ Forall (λ c, Js.is_white_space c = true) pre
       ∧ Forall (λ c, Js.is_white_space c = true) post)
  ∧ (∀ c rest, name = c :: rest → Js.is_white_space c = false)
  ∧ (∀ init c, name = init ++ [c] → Js.is_white_space c = false).
Proof.
  intros Hin Hname.
  destruct (handleSave_requests s save refetch r name Hin Hname)
    as [-> Hne].
  split; [exact Hne|]. apply trim_shape.
Qed.

Lemma saved_name_is_trimmed_witness :
  let r := PostCategory (cat_name Scenario.nature) in
  cat_name Scenario.nature ≠ []
  ∧ ∃ pre post,
      categoryName Scenario.name_typed
        = pre ++ cat_name Scenario.nature ++ post
      ∧ Forall (λ c, Js.is_white_space c = true) pre
      ∧ Forall (λ c, Js.is_white_space c = true) post.
Proof.
  intros r.
  destruct (saved_name_is_trimmed Scenario.name_typed (Resolved ())
              (Resolved (Envelope [Scenario.nature])) r
              (cat_name Scenario.nature)) as (H1 & H2 & _).
  - vm_compute. left.
  - reflexivity.
  - split; assumption.
Defined.

Lemma fetchCategories_modal (s : State) (res : Outcome CategoriesData) :
  let s' := fst (fetchCategories s res) in
  showModal s' = showModal s ∧ modalMode s' = modalMode s
  ∧ editingCategory s' = editingCategory s
  ∧ loading s' = false ∧ modalLoading s' = modalLoading s
  ∧ deleteLoading s' = deleteLoading s.
Proof. destruct res as [[l|l| |]|err]; repeat split. Qed.

Lemma handleSave_modal
    (s : State) (save : Outcome unit) (refetch : Outcome CategoriesData) :
  let s' := fst (handleSave s save refetch) in
  showModal s' = false
  ∨ (showModal s' = showModal s ∧ modalMode s' = modalMode s
     ∧ editingCategory s' = editingCategory s).
Proof.
  unfold handleSave.
  destruct (Js.is_empty (Js.trim (categoryName s))); [by right|].
  destruct (save_request s) as [q|], save as [v|err];
    try (by right);
    left; by destruct refetch as [[l|l| |]|e].
Qed.

Lemma confirmDelete_modal
    (s : State) (del : Outcome unit) (refetch : Outcome CategoriesData) :
  let s' := fst (confirmDelete s del refetch) in
  showModal s' = showModal s ∧ modalMode s' = modalMode s
  ∧ editingCategory s' = editingCategory s.
Proof.
  unfold confirmDelete. destruct (categoryToDelete s); [|by repeat split].
  destruct del as [v|err]; [|by repeat split].
  by destruct refetch as [[l|l| |]|e].
Qed.

Lemma step_modal_consistent (s : State) (ev : Event) :
  modal_consistent s → modal_consistent (fst (step s ev)).
Proof.
  intros Hs. unfold modal_consistent in *.
  destruct ev as [|c|v| |save refetch|c| |del refetch|refetch];
    cbn [step fst].
  - discriminate.
  - intros _ _. by eexists.
  - exact Hs.
  - discriminate.
  - destruct (handleSave_modal s save refetch) as [Hc|(H1 & H2 & H3)].
    + rewrite Hc. discriminate.
    + rewrite H1, H2, H3. exact Hs.
  - exact Hs.
  - exact Hs.
  - destruct (confirmDelete_modal s del refetch) as (H1 & H2 & H3).
    rewrite H1, H2, H3. exact Hs.
  - destruct (fetchCategories_modal (setError "" s) refetch)
      as (H1 & H2 & H3 & _).
    rewrite H1, H2, H3. exact Hs.
Qed.

Lemma run_modal_consistent (evs : list Event) (s : State) :
  modal_consistent s → modal_consistent (run s evs).
Proof.
  revert s. induction evs as [|ev evs IH]; intros s Hs; [exact Hs|].
  simpl. apply IH. by apply step_modal_consistent.
Qed.

Lemma mount_modal_consistent (cats : Outcome CategoriesData) :
  modal_consistent (mount cats).
Proof.
  unfold mount, modal_consistent.
  destruct (fetchCategories_modal initial cats) as (-> & _). discriminate.
Qed.

(** X17: in every state the category page can reach, saving from the
    shown modal with a name that is not blank sends exactly one
    mutation, a POST in create mode and a PUT to the category under
    edit in edit mode; edit mode is never left without a category to
    update.  On success the list request follows it, on failure nothing
    does. *)
Theorem save_sends_one_mutation
    (cats : Outcome CategoriesData) (evs : list Event)
    (err : AxiosError) (refetch : Outcome CategoriesData) :
  let s := run (mount cats) evs in
  showModal s = true →
  Js.trim (categoryName s) ≠ [] →
  ∃ req,
    (modalMode s = Create ∧ req = PostCategory (Js.trim (categoryName s))
     ∨ ∃ c, modalMode s = Edit ∧ editingCategory s = Some c
            ∧ req = PutCategory (cat_id c) (Js.trim (categoryName s)))
    ∧ snd (handleSave s (Resolved ()) refetch) = [req; GetCategories]
    ∧ snd (handleSave s (Rejected err) refetch) = [req].
Proof.
  intros s Hshown Hname.
  pose proof (run_modal_consistent evs (mount cats)
                (mount_modal_consistent cats)) as Hinv.
  fold s in Hinv.
  assert (Hreq : ∃ req,
             save_request s = Some req
             ∧ (modalMode s = Create
                ∧ req = PostCategory (Js.trim (categoryName s))
                ∨ ∃ c, modalMode s = Edit ∧ editingCategory s = Some c
                       ∧ req = PutCategory (cat_id c)
                                 (Js.trim (categoryName s)))).
  { unfold save_request. destruct (modalMode s) eqn:Hm.
    - eexists. split; [reflexivity|]. by left.
    - destruct (Hinv Hshown Hm) as [c Hc]. rewrite Hc.
      eexists. split; [reflexivity|]. right. by exists c. }
  destruct Hreq as (req & Hsave & Hkind). exists req.
  split; [exact Hkind|]. split.
  - by destruct (handleSave_success s req refetch Hname Hsave)
      as (_ & ? & _).
  - by destruct (handleSave_failure s req err refetch Hname Hsave)
      as (_ & _ & _ & ? & _).
Qed.

Lemma save_sends_one_mutation_witness :
  let evs := [OpenEdit Scenario.nature; TypeName [70; 111; 103]%N] in
  snd (handleSave (run (mount (Resolved (Envelope [Scenario.nature]))) evs)
         (Resolved ()) (Resolved (BareArray [])))
  = [PutCategory "c1" [70; 111; 103]%N; GetCategories].
Proof.
  intros evs.
  destruct (save_sends_one_mutation
              (Resolved (Envelope [Scenario.nature])) evs
              Scenario.server_error (Resolved (BareArray [])))
    as (req & Hkind & Hok & _).
  - reflexivity.
  - vm_compute. discriminate.
  - rewrite Hok. destruct Hkind as [[Hm _]|(c & _ & Hc & ->)].
    + vm_compute in Hm. discriminate.
    + assert (c = Scenario.nature)
        by (vm_compute in Hc; by injection Hc).
      subst c. vm_compute. reflexivity.
Defined.

(** X18: when the mutation succeeds but the list request after it
    fails, the modal is closed all the same, the failure of the list
    request is reported in the page-level error, and the collection
    keeps its earlier content. *)
Theorem save_then_failed_refetch
    (s : State) (req : Request) (err : AxiosError) :
  Js.trim (categoryName s) ≠ [] →
  save_request s = Some req →
  let r := handleSave s (Resolved ()) (Rejected err) in
  showModal (fst r) = false
  ∧ modalError (fst r) = ""
  ∧ error (fst r) =
      Js.or_else (response_message err) "Failed to fetch categories"
  ∧ categories (fst r) = categories s
  ∧ snd r = [req; GetCategories].
Proof.
  intros Hname Hreq. unfold handleSave.
  destruct (Js.trim (categoryName s)) as [|u w] eqn:E; [done|].
  simpl. rewrite Hreq. repeat split.
Qed.

Lemma save_then_failed_refetch_witness :
  let r := handleSave Scenario.name_typed (Resolved ())
             (Rejected Scenario.network_error) in
  showModal (fst r) = false
  ∧ error (fst r) = "Failed to fetch categories"
  ∧ categories (fst r) = [Scenario.nature].
Proof.
  intros r.
  destruct (save_then_failed_refetch Scenario.name_typed
              (PostCategory (cat_name Scenario.nature))
              Scenario.network_error) as (H1 & _ & H3 & H4 & _).
  - vm_compute. discriminate.
  - vm_compute. reflexivity.
  - split; [exact H1|]. split; [exact H3 | exact H4].
Defined.

Lemma step_categories_idle (s : State) (ev : Event) :
  idle s → idle (fst (step s ev)).
Proof.
  intros (Hl & Hm & Hd). unfold idle.
  destruct ev as [|c|v| |save refetch|c| |del refetch|refetch];
    cbn [step fst]; try (by repeat split).
  - unfold handleSave.
    destruct (Js.is_empty (Js.trim (categoryName s))); [by repeat split|].
    destruct (save_request s) as [q|], save as [v|err];
      try (by repeat split);
      by destruct refetch as [[l|l| |]|e].
  - unfold confirmDelete.
    destruct (categoryToDelete s); [|by repeat split].
    destruct del as [v|err]; [|by repeat split].
    by destruct refetch as [[l|l| |]|e].
  - destruct (fetchCategories_modal (setError "" s) refetch)
      as (_ & _ & _ & H1 & H2 & H3).
    by rewrite H1, H2, H3.
Qed.

(** X19: after mounting and after every completed operation of the
    category page no spinner is left on: [loading], [modalLoading] and
    [deleteLoading] are all false, whatever the backend answered. *)
Theorem category_page_settles
    (cats : Outcome CategoriesData) (evs : list Event) :
  loading (run (mount cats) evs) = false
  ∧ modalLoading (run (mount cats) evs) = false
  ∧ deleteLoading (run (mount cats) evs) = false.
Proof.
  assert (H0 : idle (mount cats)).
  { unfold mount, idle.
    destruct (fetchCategories_modal initial cats)
      as (_ & _ & _ & -> & -> & ->). by repeat split. }
  revert H0. generalize (mount cats).
  induction evs as [|ev evs IH]; intros s Hs; [exact Hs|].
  simpl. apply IH. by apply step_categories_idle.
Qed.

(** X20: after a rejected request, after a null body and after an
    object body without [data], [fetchCategories] keeps the
    collection it had and ends with [loading] off; the rejected request
    leaves the server's message or the fallback as error, the two
    bodies leave no error at all, so such an answer passes unnoticed. *)
Theorem category_list_kept_unless_decoded
    (s : State) (res : Outcome CategoriesData) :
  (∃ err, res = Rejected err)
  ∨ res = Resolved NullBody ∨ res = Resolved ObjectWithoutData →
  let s' := fst (fetchCategories s res) in
  categories s' = categories s
  ∧ loading s' = false
  ∧ error s' =
      match res with
      | Rejected err =>
          Js.or_else (response_message err) "Failed to fetch categories"
      | Resolved _ => ""
      end.
Proof.
  intros [(err & ->)|[->| ->]]; repeat split.
Qed.

Lemma category_list_kept_unless_decoded_witness :
  categories (fst (fetchCategories Scenario.categories_loaded
                     (Resolved NullBody))) = [Scenario.nature]
  ∧ error (fst (fetchCategories Scenario.categories_loaded
                  (Resolved NullBody))) = "".
Proof.
  destruct (category_list_kept_unless_decoded Scenario.categories_loaded
              (Resolved NullBody)) as (H1 & _ & H2).
  - right; left. reflexivity.
  - split; [exact H1 | exact H2].
Defined.

End CategoryPage.

(** ** Upload form *)

Section UploadForm.
Import Http ImageUpload.



Lemma step_staged (s : State) (ev : Event) :
  staged_within_limit s → staged_within_limit (fst (step s ev)).
Proof.
  intros Hs. unfold staged_within_limit in *.
  destruct ev as [v|v|[f|]|res]; cbn [step fst]; try exact Hs.
  - unfold handleImageChange.
    destruct (max_size <? size f) eqn:E; [exact Hs|].
    apply Z.ltb_ge in E. simpl. by intros g [= <-].
  - unfold handleSubmit. destruct (image s) as [img|] eqn:Hi.
    + destruct res as [u|err]; simpl; [discriminate|].
      rewrite Hi. exact Hs.
    + simpl. rewrite Hi. discriminate.
Qed.

Lemma step_uploads_staged
    (s : State) (ev : Event) (t c : string) (f : File) :
  UploadImage t c f ∈ snd (step s ev) → image s = Some f.
Proof.
  destruct ev as [v|v|[g|]|res]; cbn [step snd];
    try (intros H; by apply not_elem_of_nil in H).
  - unfold handleImageChange. destruct (max_size <? size g);
      intros H; by apply not_elem_of_nil in H.
  - unfold handleSubmit. destruct (image s) as [img|];
      [|intros H; by apply not_elem_of_nil in H].
    simpl. intros H. apply list_elem_of_singleton in H. congruence.
Qed.

Lemma run_uploads_within_limit
    (evs : list Event) (s : State) (t c : string) (f : File) :
  staged_within_limit s →
  UploadImage t c f ∈ snd (run_log s evs) →
  size f ≤ max_size.
Proof.
  revert s. induction evs as [|ev evs IH]; intros s Hs;
    [intros H; by apply not_elem_of_nil in H|].
  simpl. pose proof (step_staged s ev Hs) as Hs1.
  pose proof (step_uploads_staged s ev t c f) as Hup.
  destruct (step s ev) as [s1 r1]. specialize (IH s1).
  destruct (run_log s1 evs) as [s2 r2]. simpl in *.
  intros [Hin|Hin]%elem_of_app.
  - apply Hs. by apply Hup.
  - by apply IH.
Qed.

(** X22: whatever the user does on the upload form, no upload request
    ever carries a file larger than 10 * 1024 * 1024 bytes: only files
    that passed the size check are staged, and only the staged file is
    sent. *)
Theorem no_oversized_upload
    (cats : Outcome Model.CategoriesData) (evs : list Event)
    (t c : string) (f : File) :
  UploadImage t c f ∈ snd (run_log (mount cats) evs) →
  size f ≤ 10 * 1024 * 1024.
Proof.
  apply run_uploads_within_limit.
  unfold staged_within_limit, mount.
  destruct cats as [[l|l| |]|err]; simpl; discriminate.
Qed.

Lemma no_oversized_upload_witness :
  let evs := [TypeTitle "Dune"; PickFile (Some Scenario.small_file);
              PickFile (Some Scenario.big_file); Submit (Resolved ())] in
  snd (run_log (mount (Resolved (Model.Envelope [Scenario.nature]))) evs)
    = [UploadImage "Dune" "" Scenario.small_file]
  ∧ size Scenario.small_file ≤ 10 * 1024 * 1024.
Proof.
  intros evs. split; [vm_compute; reflexivity|].
  apply (no_oversized_upload (Resolved (Model.Envelope [Scenario.nature]))
           evs "Dune" "").
  vm_compute. left.
Defined.

(** X23: a successful upload empties the form (title, category, staged
    image and preview) and raises the success flag, so submitting again
    without picking a new file is refused with 'Please select an image'
    and sends nothing: one staged file is uploaded at most once. *)
Theorem upload_success_resets_form
    (s : State) (f : File) (res : Outcome unit) :
  image s = Some f →
  let s1 := fst (handleSubmit s (Resolved ())) in
  snd (handleSubmit s (Resolved ())) = [UploadImage (title s) (category s) f]
  ∧ title s1 = "" ∧ category s1 = "" ∧ image s1 = None ∧ preview s1 = ""
  ∧ success s1 = true ∧ error s1 = "" ∧ loading s1 = false
  ∧ handleSubmit s1 res = (setError "Please select an image" s1, []).
Proof.
  intros Hf. unfold handleSubmit. rewrite Hf. simpl. repeat split.
Qed.

Lemma upload_success_resets_form_witness :
  let s1 := fst (handleSubmit Scenario.form_filled (Resolved ())) in
  snd (handleSubmit Scenario.form_filled (Resolved ()))
    = [UploadImage "Dune" "c1" Scenario.small_file]
  ∧ snd (handleSubmit s1 (Resolved ())) = [].
Proof.
  intros s1.
  destruct (upload_success_resets_form Scenario.form_filled
              Scenario.small_file (Resolved ()) eq_refl)
    as (H1 & _ & _ & _ & _ & _ & _ & _ & H2).
  split; [exact H1|]. fold s1 in H2. by rewrite H2.
Defined.

(** X24: a failed upload keeps the form as it was (title, category,
    staged image, preview) and shows the server's message or the
    fallback; submitting again sends the very same request. *)
Theorem upload_failure_allows_retry
    (s : State) (f : File) (err : AxiosError) (res : Outcome unit) :
  image s = Some f →
  let s1 := fst (handleSubmit s (Rejected err)) in
  title s1 = title s ∧ category s1 = category s
  ∧ image s1 = Some f ∧ preview s1 = preview s
  ∧ success s1 = false ∧ loading s1 = false
  ∧ error s1 =
      Js.or_else (response_message err)
        "Failed to upload image. Please try again."
  ∧ snd (handleSubmit s1 res) = snd (handleSubmit s (Rejected err))
  ∧ snd (handleSubmit s1 res) = [UploadImage (title s) (category s) f].
Proof.
  intros Hf. unfold handleSubmit. rewrite Hf. simpl. rewrite Hf.
  repeat split.
Qed.

Lemma upload_failure_allows_retry_witness :
  let s1 := fst (handleSubmit Scenario.form_filled
                   (Rejected Scenario.network_error)) in
  error s1 = "Failed to upload image. Please try again."
  ∧ snd (handleSubmit s1 (Resolved ()))
      = [UploadImage "Dune" "c1" Scenario.small_file].
Proof.
  intros s1.
  destruct (upload_failure_allows_retry Scenario.form_filled
              Scenario.small_file Scenario.network_error (Resolved ())
              eq_refl)
    as (_ & _ & _ & _ & _ & _ & H1 & _ & H2).
  split; [exact H1 | exact H2].
Defined.

End UploadForm.

(** ** Dashboard *)

Section DashboardPage.
Import Http Model Dashboard.

(** X25: the dashboard shows exactly the first six images of the
    response, in the response's order: the image at each of the
    positions 0 to 5 is the response's image at that position, nothing
    is shown beyond, the number shown is the smaller of six and the
    number received, and nothing is shown when [data] is not an array;
    the error is cleared.  A failed request keeps the images and sets
    the server's message or the fallback.  [loading] ends false either
    way. *)
Theorem dashboard_shows_first_six
    (s : State) (data : option (list Image)) (err : AxiosError) :
  let ok := fetchRecentImages s (Resolved data) in
  let ko := fetchRecentImages s (Rejected err) in
  (∀ i : nat,
     images ok !! i =
     if bool_decide (i < 6)%nat then default [] data !! i else None)
  ∧ length (images ok) = Nat.min 6 (length (default [] data))
  ∧ error ok = "" ∧ loading ok = false
  ∧ images ko = images s
  ∧ error ko = Js.or_else (response_message err) "Failed to fetch images"
  ∧ loading ko = false.
Proof.
  intros ok ko.
  assert (Himg : images ok = take 6 (default [] data)) by reflexivity.
  rewrite Himg. split; [|split].
  - intros i. case_bool_decide as Hi.
    + by apply lookup_take_lt.
    + apply lookup_take_ge. lia.
  - apply length_take.
  - repeat split.
Qed.

End DashboardPage.
